(** * The breathwork session engine (src/utils/breathworkEngine.ts)

    A shallow embedding of the [BreathworkEngine] class together with the
    part of its host that the class talks to: the interval timers of the
    event loop, the monotonic clock read by [performance.now()], and the
    calls the engine makes to its listeners, to the sound callback and to
    the console.

    Modelling conventions.
    - JavaScript numbers that hold seconds, rounds, indices and counts are
      integers in every use the engine makes of them; they are modelled as
      [Z].  Clock readings are milliseconds, also in [Z]; the session logic
      never reads them back.
    - [this.session.f = v] on a [null] session, and [x.duration] on an
      [undefined] phase, raise a TypeError in the source.  The monad [M]
      below keeps that: an operation either returns or throws, and in both
      cases hands back the world as mutated so far.
    - Listeners and the sound callback are identified by a number and are
      observers: each call is recorded in the trace, in order.
    - An interval handle is a positive number, hence truthy, as in browsers
      and in Node.  The host keeps the list of live intervals; the callback
      of a cleared interval never runs.
    - [console.log] calls are kept as trace entries. *)

From Stdlib Require Import ZArith List Bool Lia String PeanoNat.
Import ListNotations.
Open Scope Z_scope.

(** ** Data model (src/utils/breathworkPatterns.ts) *)

Module PhaseType.
Inductive t := inhale | hold | exhale | pause.
End PhaseType.

Module Category.
Inductive t := relaxation | energizing | meditative | custom.
End Category.

Module Direction.
Inductive t := up | down | hold.
End Direction.

Record BreathPhase := {
  type : PhaseType.t;
  duration : Z;
  label : option string
}.

Record BreathPattern := {
  id : string;
  name : string;
  description : string;
  category : Category.t;
  phases : list BreathPhase;
  isCyclical : bool;
  defaultBreaths : option Z;
  instructions : option string
}.

Record BreathSession := {
  pattern : BreathPattern;
  breaths : Z;
  currentRound : Z;
  currentPhaseIndex : Z;
  timeRemaining : Z;
  isActive : bool;
  isPaused : bool;
  totalTime : Z;
  elapsedTime : Z
}.

(** ** Events *)

Module EventType.
Inductive t :=
    phaseChange | roundComplete | sessionComplete | pause | resume | stop.

Definition eqb (a b : t) : bool :=
    match a, b with
    | phaseChange, phaseChange | roundComplete, roundComplete
    | sessionComplete, sessionComplete | pause, pause
    | resume, resume | stop, stop => true
    | _, _ => false
    end.
End EventType.

Inductive EventData :=
| NoData
| PhaseChangeData (phase : BreathPhase) (phaseIndex round : Z)
| RoundCompleteData (completedRound totalRounds : Z).

Module EngineEvent.
Record t := { type : EventType.t; data : EventData }.
End EngineEvent.

Definition Listener := nat.
Definition SoundCallback := nat.
Definition Handle := nat.

(** ** The engine object and its host *)

Record Engine := {
  session : option BreathSession;
  timer : option Handle;
  listeners : list Listener;
  phaseStartTime : Z;
  currentCount : Z;
  countingDirection : Direction.t;
  soundCallback : option SoundCallback;
  lastUpdateTime : Z;
  expectedNextUpdate : Z;
  expectedTime : Z
}.

(** What the engine does to the outside, in the order it does it. *)
Inductive Effect :=
| Emit (ev : EngineEvent.t)                    (* emitEvent(ev) was entered *)
| Notify (l : Listener) (ev : EngineEvent.t)  (* listener l was called *)
| Sound (cb : SoundCallback) (phase : BreathPhase) (count : Z)
| ConsoleLog (msg : string) (arg : option bool).

Record World := {
  engine : Engine;
  intervals : list Handle;   (* the interval timers that are live *)
  nextHandle : Handle;       (* the handle the next setInterval returns *)
  clock : Z;                 (* performance.now(), in ms *)
  trace : list Effect
}.

(** Field updates.  Each one takes the record apart and rebuilds it with
    one field replaced. *)

Definition set_currentRound (v : Z) (s : BreathSession) : BreathSession :=
  let 'Build_BreathSession p n _ idx rem act psd tot ela := s in
  Build_BreathSession p n v idx rem act psd tot ela.

Definition set_currentPhaseIndex (v : Z) (s : BreathSession) : BreathSession :=
  let 'Build_BreathSession p n rnd _ rem act psd tot ela := s in
  Build_BreathSession p n rnd v rem act psd tot ela.

Definition set_timeRemaining (v : Z) (s : BreathSession) : BreathSession :=
  let 'Build_BreathSession p n rnd idx _ act psd tot ela := s in
  Build_BreathSession p n rnd idx v act psd tot ela.

Definition set_isActive (v : bool) (s : BreathSession) : BreathSession :=
  let 'Build_BreathSession p n rnd idx rem _ psd tot ela := s in
  Build_BreathSession p n rnd idx rem v psd tot ela.

Definition set_isPaused (v : bool) (s : BreathSession) : BreathSession :=
  let 'Build_BreathSession p n rnd idx rem act _ tot ela := s in
  Build_BreathSession p n rnd idx rem act v tot ela.

Definition set_elapsedTime (v : Z) (s : BreathSession) : BreathSession :=
  let 'Build_BreathSession p n rnd idx rem act psd tot _ := s in
  Build_BreathSession p n rnd idx rem act psd tot v.

Definition set_session (v : option BreathSession) (e : Engine) : Engine :=
  let 'Build_Engine _ tm ls pst cnt dir cb lut enu ext := e in
  Build_Engine v tm ls pst cnt dir cb lut enu ext.

Definition set_timer (v : option Handle) (e : Engine) : Engine :=
  let 'Build_Engine ses _ ls pst cnt dir cb lut enu ext := e in
  Build_Engine ses v ls pst cnt dir cb lut enu ext.

Definition set_listeners (v : list Listener) (e : Engine) : Engine :=
  let 'Build_Engine ses tm _ pst cnt dir cb lut enu ext := e in
  Build_Engine ses tm v pst cnt dir cb lut enu ext.

Definition set_phaseStartTime (v : Z) (e : Engine) : Engine :=
  let 'Build_Engine ses tm ls _ cnt dir cb lut enu ext := e in
  Build_Engine ses tm ls v cnt dir cb lut enu ext.

Definition set_currentCount (v : Z) (e : Engine) : Engine :=
  let 'Build_Engine ses tm ls pst _ dir cb lut enu ext := e in
  Build_Engine ses tm ls pst v dir cb lut enu ext.

Definition set_countingDirection (v : Direction.t) (e : Engine) : Engine :=
  let 'Build_Engine ses tm ls pst cnt _ cb lut enu ext := e in
  Build_Engine ses tm ls pst cnt v cb lut enu ext.

Definition set_soundCallback (v : option SoundCallback) (e : Engine) : Engine :=
  let 'Build_Engine ses tm ls pst cnt dir _ lut enu ext := e in
  Build_Engine ses tm ls pst cnt dir v lut enu ext.

Definition set_lastUpdateTime (v : Z) (e : Engine) : Engine :=
  let 'Build_Engine ses tm ls pst cnt dir cb _ enu ext := e in
  Build_Engine ses tm ls pst cnt dir cb v enu ext.

Definition set_expectedNextUpdate (v : Z) (e : Engine) : Engine :=
  let 'Build_Engine ses tm ls pst cnt dir cb lut _ ext := e in
  Build_Engine ses tm ls pst cnt dir cb lut v ext.

Definition set_expectedTime (v : Z) (e : Engine) : Engine :=
  let 'Build_Engine ses tm ls pst cnt dir cb lut enu _ := e in
  Build_Engine ses tm ls pst cnt dir cb lut enu v.

Definition set_engine (v : Engine) (w : World) : World :=
  let 'Build_World _ ivs nh clk tr := w in
  Build_World v ivs nh clk tr.

Definition set_intervals (v : list Handle) (w : World) : World :=
  let 'Build_World e _ nh clk tr := w in
  Build_World e v nh clk tr.

Definition set_nextHandle (v : Handle) (w : World) : World :=
  let 'Build_World e ivs _ clk tr := w in
  Build_World e ivs v clk tr.

Definition set_clock (v : Z) (w : World) : World :=
  let 'Build_World e ivs nh _ tr := w in
  Build_World e ivs nh v tr.

Definition set_trace (v : list Effect) (w : World) : World :=
  let 'Build_World e ivs nh clk _ := w in
  Build_World e ivs nh clk v.

(** ** A state monad with exceptions *)

Inductive Outcome (A : Type) :=
| Returned (a : A) (w : World)
| Thrown (w : World).
Arguments Returned {A} a w.
Arguments Thrown {A} w.

Definition M (A : Type) := World -> Outcome A.

Definition ret {A} (a : A) : M A := fun w => Returned a w.

Definition bind {A B} (m : M A) (k : A -> M B) : M B :=
  fun w => match m w with
           | Returned a w' => k a w'
           | Thrown w' => Thrown w'
           end.

Definition throw {A} : M A := fun w => Thrown w.

Declare Scope js_scope.
Delimit Scope js_scope with js.
Notation "x <- m ;; k" := (bind m (fun x => k))
  (at level 61, m at next level, right associativity) : js_scope.
Notation "m ;; k" := (bind m (fun _ => k))
  (at level 61, right associativity) : js_scope.
Open Scope js_scope.

Definition world_of {A} (o : Outcome A) : World :=
  match o with Returned _ w => w | Thrown w => w end.

Definition returns {A} (o : Outcome A) : bool :=
  match o with Returned _ _ => true | Thrown _ => false end.

(** [this]: read the engine's fields. *)
Definition this : M Engine := fun w => Returned (engine w) w.

(** [this.f = v] *)
Definition assign (f : Engine -> Engine) : M unit :=
  fun w => Returned tt (set_engine (f (engine w)) w).

(** [this.session.f]: a TypeError when the session is null. *)
Definition theSession : M BreathSession :=
  fun w => match session (engine w) with
           | Some s => Returned s w
           | None => Thrown w
           end.

(** [this.session.f = v] *)
Definition assignSession (f : BreathSession -> BreathSession) : M unit :=
  s <- theSession ;; assign (set_session (Some (f s))).

Definition effect (x : Effect) : M unit :=
  fun w => Returned tt (set_trace (trace w ++ [x]) w).

Fixpoint forEach {A} (l : list A) (f : A -> M unit) : M unit :=
  match l with
  | [] => ret tt
  | x :: l' => f x ;; forEach l' f
  end.

(** The host. *)

Definition performance_now : M Z := fun w => Returned (clock w) w.

Definition setInterval : M Handle :=
  fun w => Returned (nextHandle w)
    (set_nextHandle (S (nextHandle w))
       (set_intervals (intervals w ++ [nextHandle w]) w)).

Definition clearInterval (h : Handle) : M unit :=
  fun w => Returned tt
    (set_intervals (filter (fun h' => negb (Nat.eqb h' h)) (intervals w)) w).

(** [arr[i]] for an integer [i]: undefined out of range. *)
Definition at_index {A} (l : list A) (i : Z) : option A :=
  if i <? 0 then None else nth_error l (Z.to_nat i).

(** [x?.duration || 0] *)
Definition durationOrZero (o : option BreathPhase) : Z :=
  match o with Some p => duration p | None => 0 end.

(** ** The class [BreathworkEngine] *)

(** A freshly constructed engine in a host with no timers. *)
Definition newEngine : Engine :=
  {| session := None; timer := None; listeners := [];
     phaseStartTime := 0; currentCount := 1;
     countingDirection := Direction.up; soundCallback := None;
     lastUpdateTime := 0; expectedNextUpdate := 0; expectedTime := 0 |}.

Definition newWorld : World :=
  {| engine := newEngine; intervals := []; nextHandle := 1%nat;
     clock := 0; trace := [] |}.

Definition event (ty : EventType.t) : EngineEvent.t :=
  {| EngineEvent.type := ty; EngineEvent.data := NoData |}.

Definition emitEvent (ev : EngineEvent.t) : M unit :=
  e <- this ;;
  effect (Emit ev) ;;
  forEach (listeners e) (fun l => effect (Notify l ev)).

Definition calculateTotalTime (pattern : BreathPattern) (breaths : Z) : Z :=
  let patternDuration :=
    fold_left (fun total phase => total + duration phase) (phases pattern) 0 in
  patternDuration * breaths.

Definition getCurrentPhase : M (option BreathPhase) :=
  e <- this ;;
  match session e with
  | None => ret None
  | Some s => ret (at_index (phases (pattern s)) (currentPhaseIndex s))
  end.

Definition updateCountingState : M unit :=
  e <- this ;;
  match session e with
  | None => ret tt
  | Some s0 =>
    if negb (isActive s0) then ret tt else
    currentPhase <- getCurrentPhase ;;
    match currentPhase with
    | None => ret tt
    | Some currentPhase =>
      let phaseDuration := duration currentPhase in
      s <- theSession ;;
      let timeElapsed := phaseDuration - timeRemaining s in
      let previousCount := currentCount e in
      match type currentPhase with
      | PhaseType.inhale | PhaseType.hold | PhaseType.exhale =>
          assign (set_currentCount (Z.min (timeElapsed + 1) phaseDuration)) ;;
          assign (set_countingDirection Direction.up)
      | PhaseType.pause =>
          assign (set_currentCount (Z.max (timeRemaining s) 1)) ;;
          assign (set_countingDirection Direction.down)
      end ;;
      e' <- this ;;
      s' <- theSession ;;
      if negb (currentCount e' =? previousCount) || (elapsedTime s' =? 0) then
        match soundCallback e' with
        | Some cb =>
            _ <- performance_now ;;
            effect (Sound cb currentPhase (currentCount e'))
        | None => ret tt
        end
      else ret tt
    end
  end.

Definition createSession (pattern : BreathPattern) (breaths : Z)
  : M BreathSession :=
  let totalTime := calculateTotalTime pattern breaths in
  assign (set_session (Some
    {| pattern := pattern; breaths := breaths; currentRound := 1;
       currentPhaseIndex := 0;
       timeRemaining := durationOrZero (at_index (phases pattern) 0);
       isActive := false; isPaused := false;
       totalTime := totalTime; elapsedTime := 0 |})) ;;
  assign (set_currentCount 1) ;;
  assign (set_countingDirection Direction.up) ;;
  updateCountingState ;;
  theSession.

Definition setSoundCallback (callback : option SoundCallback) : M unit :=
  assign (set_soundCallback callback).

Definition stop : M unit :=
  e <- this ;;
  effect (ConsoleLog "Engine stop called, session exists:"
            (Some (match session e with Some _ => true | None => false end))) ;;
  match timer e with
  | Some h => clearInterval h ;; assign (set_timer None)
  | None => ret tt
  end ;;
  match session e with
  | Some _ =>
      assignSession (set_isActive false) ;;
      assignSession (set_isPaused false)
  | None => ret tt
  end ;;
  assign (set_soundCallback None) ;;
  emitEvent (event EventType.stop).

Definition completeSession : M unit :=
  stop ;;
  assign (set_soundCallback None) ;;
  assign (set_currentCount 1) ;;
  assign (set_countingDirection Direction.up) ;;
  emitEvent (event EventType.sessionComplete).

Definition completeRound : M unit :=
  e <- this ;;
  match session e with
  | None => ret tt
  | Some _ =>
    s <- theSession ;;
    assignSession (set_currentRound (currentRound s + 1)) ;;
    assignSession (set_currentPhaseIndex 0) ;;
    s <- theSession ;;
    emitEvent {| EngineEvent.type := EventType.roundComplete;
                 EngineEvent.data :=
                   RoundCompleteData (currentRound s - 1) (breaths s) |} ;;
    s <- theSession ;;
    if breaths s <? currentRound s then completeSession
    else
      match at_index (phases (pattern s)) 0 with
      | None => throw
      | Some firstPhase =>
        assignSession (set_timeRemaining (duration firstPhase)) ;;
        updateCountingState ;;
        s <- theSession ;;
        emitEvent {| EngineEvent.type := EventType.phaseChange;
                     EngineEvent.data :=
                       PhaseChangeData firstPhase 0 (currentRound s) |}
      end
  end.

Definition advancePhase : M unit :=
  e <- this ;;
  match session e with
  | None => ret tt
  | Some _ =>
    s <- theSession ;;
    assignSession (set_currentPhaseIndex (currentPhaseIndex s + 1)) ;;
    s <- theSession ;;
    if Z.of_nat (List.length (phases (pattern s))) <=? currentPhaseIndex s
    then completeRound
    else
      match at_index (phases (pattern s)) (currentPhaseIndex s) with
      | None => throw
      | Some nextPhase =>
        assignSession (set_timeRemaining (duration nextPhase)) ;;
        updateCountingState ;;
        s <- theSession ;;
        emitEvent {| EngineEvent.type := EventType.phaseChange;
                     EngineEvent.data :=
                       PhaseChangeData nextPhase (currentPhaseIndex s)
                         (currentRound s) |}
      end
  end.

(** The function handed to [setInterval] in [startPreciseTimer]. *)
Definition intervalCallback : M unit :=
  e <- this ;;
  match session e with
  | Some s =>
    if isPaused s || negb (isActive s) then
      match timer e with
      | Some h => clearInterval h ;; assign (set_timer None)
      | None => ret tt
      end
    else
      now <- performance_now ;;
      s <- theSession ;;
      assignSession (set_timeRemaining (timeRemaining s - 1)) ;;
      s <- theSession ;;
      assignSession (set_elapsedTime (elapsedTime s + 1)) ;;
      updateCountingState ;;
      s <- theSession ;;
      (if timeRemaining s <=? 0 then advancePhase else ret tt) ;;
      e <- this ;;
      assign (set_expectedTime (expectedTime e + 1000)) ;;
      assign (set_lastUpdateTime now) ;;
      e <- this ;;
      assign (set_expectedNextUpdate (expectedTime e))
  | None =>
      match timer e with
      | Some h => clearInterval h ;; assign (set_timer None)
      | None => ret tt
      end
  end.

Definition startPreciseTimer : M unit :=
  e <- this ;;
  match session e with
  | None => ret tt
  | Some _ =>
    startTime <- performance_now ;;
    assign (set_expectedTime startTime) ;;
    h <- setInterval ;;
    assign (set_timer (Some h))
  end.

Definition start : M unit :=
  e <- this ;;
  match session e with
  | None => ret tt
  | Some _ =>
    assignSession (set_isActive true) ;;
    assignSession (set_isPaused false) ;;
    now <- performance_now ;;
    assign (set_phaseStartTime now) ;;
    e <- this ;;
    assign (set_lastUpdateTime (phaseStartTime e)) ;;
    assign (set_expectedNextUpdate (phaseStartTime e + 1000)) ;;
    updateCountingState ;;
    startPreciseTimer ;;
    emitEvent (event EventType.resume)
  end.

Definition pause : M unit :=
  e <- this ;;
  match session e with
  | None => ret tt
  | Some s =>
    if negb (isActive s) then ret tt else
    assignSession (set_isPaused true) ;;
    match timer e with
    | Some h => clearInterval h ;; assign (set_timer None)
    | None => ret tt
    end ;;
    emitEvent (event EventType.pause)
  end.

Definition resume : M unit :=
  e <- this ;;
  match session e with
  | None => ret tt
  | Some s =>
    if negb (isPaused s) then ret tt else
    assignSession (set_isPaused false) ;;
    now <- performance_now ;;
    s <- theSession ;;
    let phaseDuration :=
      durationOrZero (at_index (phases (pattern s)) (currentPhaseIndex s)) in
    let timeElapsedInPhase := phaseDuration - timeRemaining s in
    assign (set_phaseStartTime (now - timeElapsedInPhase * 1000)) ;;
    assign (set_lastUpdateTime now) ;;
    assign (set_expectedTime now) ;;
    assign (set_expectedNextUpdate (now + 1000)) ;;
    startPreciseTimer ;;
    emitEvent (event EventType.resume)
  end.

Definition reset : M unit :=
  effect (ConsoleLog "Engine reset called" None) ;;
  stop ;;
  e <- this ;;
  match session e with
  | Some s =>
      assignSession (set_currentRound 1) ;;
      assignSession (set_currentPhaseIndex 0) ;;
      assignSession
        (set_timeRemaining (durationOrZero (at_index (phases (pattern s)) 0))) ;;
      assignSession (set_elapsedTime 0) ;;
      assign (set_currentCount 1) ;;
      assign (set_countingDirection Direction.up)
  | None => ret tt
  end ;;
  assign (set_soundCallback None).

Definition addEventListener (listener : Listener) : M unit :=
  e <- this ;; assign (set_listeners (listeners e ++ [listener])).

Definition removeEventListener (listener : Listener) : M unit :=
  e <- this ;;
  assign (set_listeners
            (filter (fun l => negb (Nat.eqb l listener)) (listeners e))).

(** ** The engine driven from outside *)

Inductive Op :=
| OpCreateSession (pattern : BreathPattern) (breaths : Z)
| OpSetSoundCallback (callback : option SoundCallback)
| OpStart
| OpPause
| OpResume
| OpStop
| OpReset
| OpAddEventListener (l : Listener)
| OpRemoveEventListener (l : Listener)
| OpFire (h : Handle)     (* the host runs the callback of interval h *)
| OpElapse (ms : N).      (* time passes *)

Definition elapse (ms : N) : M unit :=
  fun w => Returned tt (set_clock (clock w + Z.of_N ms) w).

Definition live (h : Handle) (w : World) : bool :=
  existsb (Nat.eqb h) (intervals w).

(** A cleared interval never fires. *)
Definition fire (h : Handle) : M unit :=
  fun w => if live h w then intervalCallback w else Returned tt w.

Definition exec (op : Op) : M unit :=
  match op with
  | OpCreateSession p n => _ <- createSession p n ;; ret tt
  | OpSetSoundCallback cb => setSoundCallback cb
  | OpStart => start
  | OpPause => pause
  | OpResume => resume
  | OpStop => stop
  | OpReset => reset
  | OpAddEventListener l => addEventListener l
  | OpRemoveEventListener l => removeEventListener l
  | OpFire h => fire h
  | OpElapse ms => elapse ms
  end.

(** An exception thrown inside an event handler or a timer callback is
    reported by the host; the engine stays as the handler left it. *)
Definition step (op : Op) (w : World) : World := world_of (exec op w).

Definition run (ops : list Op) (w : World) : World :=
  fold_left (fun w op => step op w) ops w.

Definition reachable (w : World) : Prop := exists ops, w = run ops newWorld.

(** The events passed to [emitEvent], oldest first. *)
Fixpoint emitted (t : list Effect) : list EngineEvent.t :=
  match t with
  | [] => []
  | Emit ev :: t' => ev :: emitted t'
  | _ :: t' => emitted t'
  end.

Definition count_type (ty : EventType.t) (evs : list EngineEvent.t) : nat :=
  List.length (filter (fun ev => EventType.eqb (EngineEvent.type ev) ty) evs).

(** The timer [this.timer] ticking [n] times. *)
Definition tick : M unit :=
  e <- this ;;
  match timer e with
  | Some h => fire h
  | None => ret tt
  end.

Fixpoint ticks (n : nat) (w : World) : World :=
  match n with
  | O => w
  | S n' => ticks n' (world_of (tick w))
  end.

(** ** Definitions used by the statements *)

(** One call to [emitEvent] extends the trace by the event and by one
    notification per listener, in registration order. *)
Definition emission (ev : EngineEvent.t) (ls : list Listener) : list Effect :=
  Emit ev :: map (fun l => Notify l ev) ls.

(** What [updateCountingState] leaves behind: the count, the direction and
    the trace may change, nothing else does. *)
Definition countAfter (w : World) : Z :=
  currentCount (engine (world_of (updateCountingState w))).

Definition directionAfter (w : World) : Direction.t :=
  countingDirection (engine (world_of (updateCountingState w))).

Definition traceAfter (w : World) : list Effect :=
  trace (world_of (updateCountingState w)).

Definition counted (w : World) : World :=
  set_trace (traceAfter w)
    (set_engine
       (set_countingDirection (directionAfter w)
          (set_currentCount (countAfter w) (engine w))) w).

(** The counting rule of [updateCountingState], phase type by phase type. *)
Definition countingRule (p : BreathPhase) (remaining count : Z)
  (dir : Direction.t) : Prop :=
  match type p with
  | PhaseType.pause => count = Z.max remaining 1 /\ dir = Direction.down
  | _ => count = Z.min (duration p - remaining + 1) (duration p)
         /\ dir = Direction.up
  end.

(** The guards of [pause] and of [resume]. *)
Definition hasActiveSession (w : World) : bool :=
  match session (engine w) with Some s => isActive s | None => false end.

Definition hasPausedSession (w : World) : bool :=
  match session (engine w) with Some s => isPaused s | None => false end.

(** The first entry of [BREATH_PATTERNS]. *)
Definition boxBreathing : BreathPattern :=
  {| id := "box-breathing";
     name := "Box Breathing";
     description := "Equal duration for all phases - promotes calm and focus";
     category := Category.relaxation;
     phases :=
       [ {| type := PhaseType.inhale; duration := 4; label := Some "Inhale"%string |};
         {| type := PhaseType.hold; duration := 4; label := Some "Hold"%string |};
         {| type := PhaseType.exhale; duration := 4; label := Some "Exhale"%string |};
         {| type := PhaseType.hold; duration := 4; label := Some "Hold"%string |} ];
     isCyclical := true;
     defaultBreaths := Some 10;
     instructions :=
       Some "Breathe in for 4 counts, hold for 4, exhale for 4, hold for 4. Repeat."%string |}.

(** A user-defined pattern with the given phases. *)
Definition customPattern (ps : list BreathPhase) : BreathPattern :=
  {| id := "custom"; name := "Custom"; description := EmptyString;
     category := Category.custom; phases := ps; isCyclical := true;
     defaultBreaths := None; instructions := None |}.

Definition phase (ty : PhaseType.t) (d : Z) : BreathPhase :=
  {| type := ty; duration := d; label := None |}.

(** A session that was started. *)
Definition runningWorld : World :=
  run [OpCreateSession boxBreathing 2; OpStart] newWorld.

(** A session that was started and then paused. *)
Definition pausedWorld : World :=
  run [OpCreateSession boxBreathing 2; OpStart; OpPause] newWorld.

Definition isType (ty : EventType.t) (ev : EngineEvent.t) : bool :=
  EventType.eqb (EngineEvent.type ev) ty.

(** Every [sessionComplete] of [evs] comes right after a [stop]; [prev] is
    the event emitted just before [evs], if there is one. *)
Fixpoint completeAfterStop (prev : option EngineEvent.t)
  (evs : list EngineEvent.t) : bool :=
  match evs with
  | [] => true
  | ev :: evs' =>
      (if isType EventType.sessionComplete ev
       then match prev with
            | Some p => isType EventType.stop p
            | None => false
            end
       else true)
      && completeAfterStop (Some ev) evs'
  end.

(** The displayed count and direction agree with the counting rule whenever
    the session is active and stands on a phase. *)
Definition countingOk (w : World) : Prop :=
  forall s p,
    session (engine w) = Some s -> isActive s = true ->
    at_index (phases (pattern s)) (currentPhaseIndex s) = Some p ->
    countingRule p (timeRemaining s)
      (currentCount (engine w)) (countingDirection (engine w)).

(** The [sessionComplete] events emitted between [w] and [w']. *)
Definition completedBetween (w w' : World) : nat :=
  count_type EventType.sessionComplete (emitted (trace w'))
  - count_type EventType.sessionComplete (emitted (trace w)).

(** How often the session has completed while [ops] ran from [w], counted
    from its creation or its last [reset()]; [k] is the count so far. *)
Fixpoint completions (k : nat) (ops : list Op) (w : World) : nat :=
  match ops with
  | [] => k
  | op :: ops' =>
      let w' := step op w in
      let k' := match op with
                | OpCreateSession _ _ | OpReset => 0%nat
                | _ => (k + completedBetween w w')%nat
                end in
      completions k' ops' w'
  end.

(** Sessions are created with at least one breath. *)
Definition validOp (op : Op) : Prop :=
  match op with
  | OpCreateSession _ n => 1 <= n
  | _ => True
  end.

(** The round counter after [k] completions. *)
Definition roundOk (k : nat) (w : World) : Prop :=
  exists s,
    session (engine w) = Some s /\
    1 <= breaths s /\
    match k with
    | O => 1 <= currentRound s <= breaths s
    | S _ => currentRound s = breaths s + Z.of_nat k
    end.

(** A one-second inhale, one breath: started, run to completion, started
    again and run to completion again. *)
Definition restartedWorld : World :=
  run [OpCreateSession (customPattern [phase PhaseType.inhale 1]) 1;
       OpStart; OpFire 1%nat; OpStart; OpFire 2%nat] newWorld.

(** The timer slot names a live interval, and a running session has one. *)
Definition timerOk (w : World) : Prop :=
  (forall h, timer (engine w) = Some h -> live h w = true) /\
  (forall s, session (engine w) = Some s ->
             isActive s = true -> isPaused s = false ->
             timer (engine w) <> None).

(** A second [start()] on a session that is already running. *)
Definition doubleStarted : World :=
  run [OpCreateSession boxBreathing 2; OpStart; OpStart] newWorld.

(** [s'] is [s], [k] seconds further into the same phase. *)
Definition secondsLater (k : Z) (s s' : BreathSession) : Prop :=
  pattern s' = pattern s /\ breaths s' = breaths s /\
  currentRound s' = currentRound s /\
  currentPhaseIndex s' = currentPhaseIndex s /\
  isActive s' = isActive s /\ isPaused s' = isPaused s /\
  totalTime s' = totalTime s /\
  timeRemaining s' = timeRemaining s - k /\
  elapsedTime s' = elapsedTime s + k.

(** The count on display during each of the next [n] seconds: before the
    first tick, after the first tick, ..., after tick [n - 1]. *)
Definition countsDuring (n : nat) (w : World) : list Z :=
  map (fun k => currentCount (engine (ticks k w))) (seq 0 n).

(** [1, 2, ..., n] and [n, n - 1, ..., 1]. *)
Definition countUp (n : nat) : list Z :=
  map (fun k => Z.of_nat k + 1) (seq 0 n).

Definition countDown (n : nat) : list Z :=
  map (fun k => Z.of_nat n - Z.of_nat k) (seq 0 n).

(** Inhale for three seconds, pause for two. *)
Definition inhalePause : BreathPattern :=
  customPattern [phase PhaseType.inhale 3; phase PhaseType.pause 2].

(** The seconds in one round of a pattern. *)
Fixpoint sumDurations (ps : list BreathPhase) : Z :=
  match ps with
  | [] => 0
  | p :: ps' => duration p + sumDurations ps'
  end.

(** A session of [P] for [N] breaths that is running with [left] seconds to
    go; [base] is what had been emitted before the session was created. *)
Definition ticking (P : BreathPattern) (N : Z) (base : list EngineEvent.t)
  (left : Z) (w : World) : Prop :=
  exists s h i delta,
    session (engine w) = Some s /\
    timer (engine w) = Some h /\ live h w = true /\
    pattern s = P /\ breaths s = N /\
    isActive s = true /\ isPaused s = false /\
    currentPhaseIndex s = Z.of_nat i /\ (i < List.length (phases P))%nat /\
    1 <= currentRound s <= N /\
    1 <= timeRemaining s /\
    left = timeRemaining s + sumDurations (skipn (S i) (phases P))
           + sumDurations (phases P) * (N - currentRound s) /\
    totalTime s = calculateTotalTime P N /\
    elapsedTime s + left = calculateTotalTime P N /\
    emitted (trace w) = base ++ delta /\
    Z.of_nat (count_type EventType.roundComplete delta) = currentRound s - 1 /\
    count_type EventType.sessionComplete delta = 0%nat.

(** The same session, completed. *)
Definition completed (P : BreathPattern) (N : Z) (base : list EngineEvent.t)
  (w : World) : Prop :=
  exists s delta,
    session (engine w) = Some s /\
    timer (engine w) = None /\
    pattern s = P /\ breaths s = N /\
    isActive s = false /\ isPaused s = false /\
    currentRound s = N + 1 /\
    totalTime s = calculateTotalTime P N /\
    elapsedTime s = calculateTotalTime P N /\
    emitted (trace w) = base ++ delta /\
    Z.of_nat (count_type EventType.roundComplete delta) = N /\
    count_type EventType.sessionComplete delta = 1%nat.

(** ** More of the class and of its callers *)

(** The calls to the sound callback recorded in a trace, oldest first. *)
Fixpoint sounds (t : list Effect) : list (SoundCallback * BreathPhase * Z) :=
  match t with
  | [] => []
  | Sound cb p c :: t' => (cb, p, c) :: sounds t'
  | _ :: t' => sounds t'
  end.

(** The listeners called in a trace, oldest first. *)
Fixpoint notified (t : list Effect) : list Listener :=
  match t with
  | [] => []
  | Notify l _ :: t' => l :: notified t'
  | _ :: t' => notified t'
  end.

(** What one call to [updateCountingState] appends to the trace. *)
Definition spoken (w : World) : list Effect :=
  skipn (List.length (trace w)) (traceAfter w).

(** The host hands out handles it has not handed out before. *)
Definition handlesFresh (w : World) : Prop :=
  forall h, live h w = true -> (h < nextHandle w)%nat.

(** The session's total time is what [calculateTotalTime] gives for its
    pattern and breaths. *)
Definition totalOk (w : World) : Prop :=
  forall s, session (engine w) = Some s ->
            totalTime s = calculateTotalTime (pattern s) (breaths s).

(** Patterns like Kapalabhati and Bhastrika: every phase counts up and lasts
    one second. *)
Definition oneSecondPhases (P : BreathPattern) : Prop :=
  Forall (fun p => type p <> PhaseType.pause /\ duration p = 1) (phases P).

Definition quietOp (op : Op) : Prop :=
  match op with
  | OpCreateSession P _ => oneSecondPhases P
  | _ => True
  end.

Definition quietInv (w : World) : Prop :=
  currentCount (engine w) = 1 /\
  forall s, session (engine w) = Some s ->
            oneSecondPhases (pattern s) /\
            timeRemaining s <= 1 /\ 0 <= elapsedTime s.

(** Sessions are created with a pattern that has a phase. *)
Definition nonEmptyOp (op : Op) : Prop :=
  match op with
  | OpCreateSession P _ => phases P <> []
  | _ => True
  end.

(** The phase index points at a phase. *)
Definition indexOk (w : World) : Prop :=
  forall s, session (engine w) = Some s ->
            0 <= currentPhaseIndex s < Z.of_nat (List.length (phases (pattern s))).


(** Every phase of the patterns an operation installs lasts at least a
    second, and there is at least one. *)
Definition wellFormed (P : BreathPattern) : Prop :=
  phases P <> [] /\ Forall (fun p => 1 <= duration p) (phases P).

Definition wellFormedOp (op : Op) : Prop :=
  match op with
  | OpCreateSession P _ => wellFormed P
  | _ => True
  end.

(** The count is within the current phase. *)
Definition countInv (w : World) : Prop :=
  (session (engine w) = None -> currentCount (engine w) = 1) /\
  forall s, session (engine w) = Some s ->
    wellFormed (pattern s) /\
    exists p, at_index (phases (pattern s)) (currentPhaseIndex s) = Some p /\
              timeRemaining s <= duration p /\
              1 <= currentCount (engine w) <= duration p.

(** ** The getters *)

Definition getSession : M (option BreathSession) :=
  e <- this ;; ret (session e).

Definition getPhaseTimeRemaining : M Z :=
  e <- this ;;
  match session e with
  | None => ret 0
  | Some s => ret (timeRemaining s)
  end.

Definition getCurrentCount : M Z :=
  e <- this ;; ret (currentCount e).

Definition getCountingDirection : M Direction.t :=
  e <- this ;; ret (countingDirection e).

Definition getTotalTimeRemaining : M Z :=
  e <- this ;;
  match session e with
  | None => ret 0
  | Some s => ret (totalTime s - elapsedTime s)
  end.

(** What a call returns, when it returns. *)
Definition result {A} (o : Outcome A) : option A :=
  match o with Returned a _ => Some a | Thrown _ => None end.

(** ** The catalog, [breathworkPatterns.ts] *)

Definition labelled (ty : PhaseType.t) (d : Z) (l : string) : BreathPhase :=
  {| type := ty; duration := d; label := Some l |}.

Definition fourSevenEight : BreathPattern :=
  {| id := "4-7-8-breathing";
     name := "4-7-8 Breathing";
     description := "Extended exhale promotes relaxation and sleep";
     category := Category.relaxation;
     phases :=
       [ labelled PhaseType.inhale 4 "Inhale";
         labelled PhaseType.hold 7 "Hold";
         labelled PhaseType.exhale 8 "Exhale" ];
     isCyclical := true;
     defaultBreaths := Some 10;
     instructions :=
       Some "Inhale for 4 counts, hold for 7, exhale for 8. Repeat."%string |}.

Definition coherentBreathing : BreathPattern :=
  {| id := "coherent-breathing";
     name := "Coherent Breathing";
     description := "Equal inhale and exhale for heart rate variability";
     category := Category.relaxation;
     phases :=
       [ labelled PhaseType.inhale 5 "Inhale";
         labelled PhaseType.exhale 5 "Exhale" ];
     isCyclical := true;
     defaultBreaths := Some 20;
     instructions :=
       Some "Breathe in and out for equal counts of 5. No holds."%string |}.

Definition extendedExhale : BreathPattern :=
  {| id := "extended-exhale";
     name := "Extended Exhale";
     description := "Longer exhale activates parasympathetic nervous system";
     category := Category.relaxation;
     phases :=
       [ labelled PhaseType.inhale 4 "Inhale";
         labelled PhaseType.exhale 6 "Exhale" ];
     isCyclical := true;
     defaultBreaths := Some 15;
     instructions :=
       Some "Inhale for 4 counts, exhale for 6 counts. No holds."%string |}.

Definition kapalabhati : BreathPattern :=
  {| id := "kapalabhati";
     name := "Kapalabhati";
     description := "Quick forceful exhales with passive inhales";
     category := Category.energizing;
     phases :=
       [ labelled PhaseType.inhale 1 "Inhale";
         labelled PhaseType.exhale 1 "Exhale" ];
     isCyclical := true;
     defaultBreaths := Some 30;
     instructions :=
       Some "Quick forceful exhales with passive inhales. 1 second per breath."%string |}.

Definition wimHof : BreathPattern :=
  {| id := "wim-hof";
     name := "Wim Hof Breathing";
     description := "Deep breathing for energy and focus";
     category := Category.energizing;
     phases :=
       [ labelled PhaseType.inhale 3 "Deep Inhale";
         labelled PhaseType.exhale 3 "Relaxed Exhale" ];
     isCyclical := true;
     defaultBreaths := Some 30;
     instructions :=
       Some "Deep, powerful breaths. Inhale and exhale for 3 counts each."%string |}.

Definition bhastrika : BreathPattern :=
  {| id := "bhastrika";
     name := "Bhastrika (Bellows Breath)";
     description := "Forceful inhale and exhale for energy";
     category := Category.energizing;
     phases :=
       [ labelled PhaseType.inhale 1 "Forceful Inhale";
         labelled PhaseType.exhale 1 "Forceful Exhale" ];
     isCyclical := true;
     defaultBreaths := Some 30;
     instructions :=
       Some "Forceful inhale and exhale. 1-2 breaths per second."%string |}.

Definition doubleInhale : BreathPattern :=
  {| id := "double-inhale";
     name := "Double Inhale / Long Exhale";
     description := "Two quick inhales followed by long exhale";
     category := Category.energizing;
     phases :=
       [ labelled PhaseType.inhale 1 "First Inhale";
         labelled PhaseType.inhale 1 "Second Inhale";
         labelled PhaseType.exhale 4 "Long Exhale" ];
     isCyclical := true;
     defaultBreaths := Some 10;
     instructions :=
       Some "Two quick inhales through nose, one long exhale through mouth."%string |}.

Definition samaVritti : BreathPattern :=
  {| id := "sama-vritti";
     name := "Sama Vritti";
     description := "Equal duration for all phases";
     category := Category.meditative;
     phases :=
       [ labelled PhaseType.inhale 5 "Inhale";
         labelled PhaseType.hold 5 "Hold";
         labelled PhaseType.exhale 5 "Exhale";
         labelled PhaseType.hold 5 "Hold" ];
     isCyclical := true;
     defaultBreaths := Some 10;
     instructions :=
       Some "Equal duration for inhale, hold, exhale, and hold. 5 counts each."%string |}.

Definition vilomaInterrupted : BreathPattern :=
  {| id := "viloma-interrupted";
     name := "Viloma (Interrupted Inhale)";
     description := "Segmented inhale with normal exhale";
     category := Category.meditative;
     phases :=
       [ labelled PhaseType.inhale 2 "First Inhale";
         labelled PhaseType.hold 1 "Mini Hold";
         labelled PhaseType.inhale 2 "Second Inhale";
         labelled PhaseType.hold 1 "Mini Hold";
         labelled PhaseType.inhale 2 "Third Inhale";
         labelled PhaseType.exhale 6 "Exhale" ];
     isCyclical := true;
     defaultBreaths := Some 8;
     instructions :=
       Some "Three short inhales with mini holds, then normal exhale."%string |}.

Definition nadiShodhana : BreathPattern :=
  {| id := "nadi-shodhana";
     name := "Nadi Shodhana";
     description := "Alternate nostril breathing for balance";
     category := Category.meditative;
     phases :=
       [ labelled PhaseType.inhale 4 "Inhale Left";
         labelled PhaseType.hold 4 "Hold";
         labelled PhaseType.exhale 4 "Exhale Right";
         labelled PhaseType.inhale 4 "Inhale Right";
         labelled PhaseType.hold 4 "Hold";
         labelled PhaseType.exhale 4 "Exhale Left" ];
     isCyclical := true;
     defaultBreaths := Some 5;
     instructions :=
       Some "Inhale through left nostril, exhale through right. Then reverse."%string |}.

Definition BREATH_PATTERNS : list BreathPattern :=
  [ boxBreathing; fourSevenEight; coherentBreathing; extendedExhale;
    kapalabhati; wimHof; bhastrika; doubleInhale;
    samaVritti; vilomaInterrupted; nadiShodhana ].

Definition getPatternById (i : string) : option BreathPattern :=
  find (fun pattern => String.eqb (id pattern) i) BREATH_PATTERNS.

Definition sameCategory (a b : Category.t) : bool :=
  match a, b with
  | Category.relaxation, Category.relaxation
  | Category.energizing, Category.energizing
  | Category.meditative, Category.meditative
  | Category.custom, Category.custom => true
  | _, _ => false
  end.

Definition getPatternsByCategory (c : Category.t) : list BreathPattern :=
  filter (fun pattern => sameCategory (category pattern) c) BREATH_PATTERNS.

Definition getCategoryDisplayName (c : Category.t) : string :=
  match c with
  | Category.relaxation => "relaxing"
  | Category.energizing => "energizing"
  | Category.meditative => "meditative"
  | Category.custom => "custom"
  end.

(** * Verification *)

(** ** Running the monad *)

Lemma forEach_notify ev ls w :
  forEach ls (fun l => effect (Notify l ev)) w
  = Returned tt (set_trace (trace w ++ map (fun l => Notify l ev) ls) w).
Proof.
  revert w. induction ls as [|l ls IH]; intros [e ivs nh clk tr].
  - cbn. rewrite app_nil_r. reflexivity.
  - cbn. unfold bind. cbn. rewrite IH. cbn. rewrite <- app_assoc. reflexivity.
Qed.

Lemma emitEvent_run ev w :
  emitEvent ev w
  = Returned tt (set_trace (trace w ++ emission ev (listeners (engine w))) w).
Proof.
  destruct w as [e ivs nh clk tr].
  unfold emitEvent, emission, bind, this. cbn. rewrite forEach_notify. cbn.
  rewrite <- app_assoc. reflexivity.
Qed.

Lemma bind_emit {B} ev (k : unit -> M B) w :
  bind (emitEvent ev) k w
  = k tt (set_trace (trace w ++ emission ev (listeners (engine w))) w).
Proof. unfold bind. rewrite emitEvent_run. reflexivity. Qed.

Lemma bind_assoc {A B C} (m : M A) (f : A -> M B) (g : B -> M C) w :
  bind (bind m f) g w = bind m (fun x => bind (f x) g) w.
Proof. unfold bind. destruct (m w); reflexivity. Qed.

Lemma emitted_app t1 t2 : emitted (t1 ++ t2) = emitted t1 ++ emitted t2.
Proof.
  induction t1 as [|x t1 IH]; [reflexivity|].
  destruct x; cbn; rewrite IH; reflexivity.
Qed.

Lemma emitted_emission ev ls : emitted (emission ev ls) = [ev].
Proof. unfold emission. cbn. f_equal. induction ls; auto. Qed.

Ltac js_cbn :=
  cbn -[updateCountingState countAfter directionAfter traceAfter emitEvent
        count_type skipn sumDurations calculateTotalTime
        emission Z.add Z.sub Z.mul Z.leb Z.ltb Z.eqb Z.min Z.max Z.of_nat
        at_index Nat.eqb].

Ltac js_cbn_all :=
  cbn -[updateCountingState countAfter directionAfter traceAfter emitEvent
        count_type skipn sumDurations calculateTotalTime
        emission Z.add Z.sub Z.mul Z.leb Z.ltb Z.eqb Z.min Z.max Z.of_nat
        at_index Nat.eqb] in *.

Ltac destruct_world w :=
  destruct w as [[? ? ? ? ? ? ? ? ? ?] ? ? ? ?].

Ltac split_matches :=
  repeat match goal with
         | |- context [match ?x with _ => _ end] =>
             destruct x; js_cbn; try reflexivity
         end.

Lemma ucs_returns w :
  updateCountingState w = Returned tt (world_of (updateCountingState w)).
Proof.
  destruct_world w. unfold updateCountingState. js_cbn. split_matches.
Qed.

Lemma ucs_run w : updateCountingState w = Returned tt (counted w).
Proof.
  rewrite ucs_returns. f_equal.
  unfold counted, countAfter, directionAfter, traceAfter.
  destruct_world w. unfold updateCountingState. js_cbn. split_matches.
Qed.

Lemma bind_ucs {B} (k : unit -> M B) w :
  bind updateCountingState k w = k tt (counted w).
Proof. unfold bind. rewrite ucs_run. reflexivity. Qed.

(** [updateCountingState] emits no event: it only calls the sound callback. *)
Lemma ucs_emitted w : emitted (traceAfter w) = emitted (trace w).
Proof.
  unfold traceAfter. destruct_world w. unfold updateCountingState. js_cbn. split_matches.
  all: rewrite emitted_app; cbn; rewrite app_nil_r; reflexivity.
Qed.

Lemma ucs_counts w s p :
  session (engine w) = Some s -> isActive s = true ->
  at_index (phases (pattern s)) (currentPhaseIndex s) = Some p ->
  countingRule p (timeRemaining s) (countAfter w) (directionAfter w).
Proof.
  unfold countAfter, directionAfter.
  destruct_world w. unfold updateCountingState, countingRule. js_cbn.
  intros -> Ha Hp. js_cbn. rewrite Ha. js_cbn. rewrite Hp. js_cbn.
  destruct (type p); js_cbn; split_matches; auto.
Qed.

Ltac js_hyps :=
  repeat match goal with
         | H : isActive ?s = _ |- context [isActive ?s] => rewrite H
         | H : isPaused ?s = _ |- context [isPaused ?s] => rewrite H
         | H : existsb (Nat.eqb ?h) ?l = _
           |- context [existsb (Nat.eqb ?h) ?l] => rewrite H
         | H : at_index ?l ?i = _ |- context [at_index ?l ?i] => rewrite H
         end.

Ltac js_simp :=
  repeat (js_cbn; js_hyps;
          rewrite ?bind_assoc, ?bind_ucs, ?bind_emit, ?ucs_run, ?emitEvent_run).

Ltac js_unfold :=
  unfold tick, fire, live, intervalCallback, advancePhase, completeRound,
    completeSession, start, pause, resume, reset, stop, startPreciseTimer,
    createSession.

(** ** The control surface *)

Ltac control w :=
  destruct_world w;
  match goal with
  | s : option BreathSession |- _ => destruct s as [[? ? ? ? ? ? ? ? ?]|]
  end;
  js_unfold; js_simp.

(** C9. [stop()] is not silent: in every engine state, with or without a
    session, stopped or not, it returns normally, emits one [stop] event,
    delivered to every listener in registration order, and leaves the sound
    callback cleared. *)
Theorem stop_always_emits (w : World) :
  exists w',
    stop w = Returned tt w' /\
    trace w' =
      trace w
      ++ ConsoleLog "Engine stop called, session exists:"
           (Some (match session (engine w) with Some _ => true | None => false end))
         :: emission (event EventType.stop) (listeners (engine w)) /\
    emitted (trace w') = emitted (trace w) ++ [event EventType.stop] /\
    soundCallback (engine w') = None.
Proof.
  control w; destruct timer0; js_simp; eexists; (split; [reflexivity|]);
    js_simp; rewrite <- ?app_assoc; (split; [reflexivity|]);
    rewrite !emitted_app, emitted_emission; cbn; auto.
Qed.

Lemma createSession_returns p n w : returns (createSession p n w) = true.
Proof. destruct_world w. js_unfold. js_simp. reflexivity. Qed.

Lemma start_returns w : returns (start w) = true.
Proof. control w; reflexivity. Qed.

Lemma stop_returns w : returns (stop w) = true.
Proof. control w; destruct timer0; js_simp; reflexivity. Qed.

Lemma pause_returns w : returns (pause w) = true.
Proof.
  control w; try reflexivity.
  destruct isActive0; js_simp; [|reflexivity].
  destruct timer0; js_simp; reflexivity.
Qed.

Lemma resume_returns w : returns (resume w) = true.
Proof.
  control w; try reflexivity.
  destruct isPaused0; js_simp; reflexivity.
Qed.

Lemma reset_returns w : returns (reset w) = true.
Proof. control w; destruct timer0; js_simp; reflexivity. Qed.

(** C4. [pause()] without a session or with an inactive one, and [resume()]
    without a paused session, hand back the world exactly as it was: no
    session field changes and nothing is emitted.  No control method throws,
    whatever the state it is called in. *)
Theorem invalid_calls_are_absorbed (w : World) :
  (hasActiveSession w = false -> pause w = Returned tt w) /\
  (hasPausedSession w = false -> resume w = Returned tt w) /\
  (forall p n, returns (createSession p n w) = true) /\
  returns (start w) = true /\
  returns (pause w) = true /\
  returns (resume w) = true /\
  returns (stop w) = true /\
  returns (reset w) = true.
Proof.
  repeat split;
    auto using createSession_returns, start_returns, pause_returns,
               resume_returns, stop_returns, reset_returns.
  - unfold hasActiveSession. control w; try reflexivity.
    intros ->. reflexivity.
  - unfold hasPausedSession. control w; try reflexivity.
    intros ->. reflexivity.
Qed.

Lemma invalid_calls_are_absorbed_witness :
  pause newWorld = Returned tt newWorld /\
  resume (world_of (createSession boxBreathing 2 newWorld))
  = Returned tt (world_of (createSession boxBreathing 2 newWorld)).
Proof.
  split.
  - apply (proj1 (invalid_calls_are_absorbed newWorld)). reflexivity.
  - apply (proj1 (proj2 (invalid_calls_are_absorbed
                           (world_of (createSession boxBreathing 2 newWorld))))).
    reflexivity.
Defined.

(** C5, as the claim has it, fails: a second [pause()] on a session that is
    active and already paused emits a [pause] event again. *)
Lemma second_pause_emits_again :
  hasActiveSession pausedWorld = true /\
  hasPausedSession pausedWorld = true /\
  emitted (trace (world_of (pause pausedWorld)))
  = emitted (trace pausedWorld) ++ [event EventType.pause] /\
  pause pausedWorld <> Returned tt pausedWorld.
Proof.
  repeat split; try reflexivity.
  intro H. apply (f_equal (fun o => List.length (trace (world_of o)))) in H.
  vm_compute in H. discriminate H.
Qed.

(** C5, amended.  On a session that is active and already paused, [pause()]
    changes no field of the engine or of its session (the timer handle stays
    cleared) but emits one more [pause] event; on a session that is active and
    not paused, [resume()] is a no-op. *)
Theorem repeated_pause_resume (w : World) (s : BreathSession) :
  session (engine w) = Some s -> isActive s = true ->
  (isPaused s = true ->
   exists w',
     pause w = Returned tt w' /\
     engine w' = set_timer None (engine w) /\
     emitted (trace w') = emitted (trace w) ++ [event EventType.pause]) /\
  (isPaused s = false -> resume w = Returned tt w).
Proof.
  intros Hs Ha. destruct_world w. cbn in Hs. subst.
  destruct s as [? ? ? ? ? ? ? ? ?]. cbn in Ha. subst.
  split; intro Hp; cbn in Hp; subst; js_unfold; js_simp; [|reflexivity].
  destruct timer0; js_simp; eexists; (split; [reflexivity|]); js_simp;
    rewrite emitted_app, emitted_emission; split; reflexivity.
Qed.

Lemma repeated_pause_resume_witness :
  (exists w',
     pause pausedWorld = Returned tt w' /\
     engine w' = set_timer None (engine pausedWorld) /\
     emitted (trace w') = emitted (trace pausedWorld) ++ [event EventType.pause]).
Proof.
  destruct (session (engine pausedWorld)) as [s|] eqn:Hs; [|discriminate Hs].
  refine (proj1 (repeated_pause_resume pausedWorld s Hs _) _);
    vm_compute in Hs; injection Hs as <-; reflexivity.
Defined.

(** C6. On a running session, [pause()] directly followed by [resume()]
    returns with the session as it was: [timeRemaining], [currentRound],
    [currentPhaseIndex], [elapsedTime] and every other field; the count and
    its direction are kept too.  The phase's logical start is recomputed as
    [now - (phaseDuration - timeRemaining) * 1000].  The same holds when any
    amount of time passes in between. *)
Theorem pause_resume_keeps_counters (w : World) (s : BreathSession) :
  session (engine w) = Some s -> isActive s = true -> isPaused s = false ->
  (exists w',
     (pause ;; resume) w = Returned tt w' /\
     session (engine w') = Some s /\
     currentCount (engine w') = currentCount (engine w) /\
     countingDirection (engine w') = countingDirection (engine w) /\
     clock w' = clock w /\
     phaseStartTime (engine w')
     = clock w
       - (durationOrZero
            (at_index (phases (pattern s)) (currentPhaseIndex s))
          - timeRemaining s) * 1000) /\
  (forall ms, exists w',
     (pause ;; elapse ms ;; resume) w = Returned tt w' /\
     session (engine w') = Some s).
Proof.
  intros Hs Ha Hp. destruct_world w. cbn in Hs. subst.
  destruct s as [? ? ? ? ? ? ? ? ?]. cbn in Ha, Hp. subst.
  split; [|intro ms].
  - js_unfold. js_simp.
    destruct timer0; js_simp; eexists; (split; [reflexivity|]); js_simp;
      repeat split; reflexivity.
  - js_unfold. unfold elapse. js_simp.
    destruct timer0; js_simp; eexists; (split; [reflexivity|]); js_simp;
      reflexivity.
Qed.

Lemma pause_resume_keeps_counters_witness :
  exists w',
    (pause ;; resume) runningWorld = Returned tt w' /\
    session (engine w') = session (engine runningWorld).
Proof.
  destruct (session (engine runningWorld)) as [s|] eqn:Hs; [|discriminate Hs].
  destruct (pause_resume_keeps_counters runningWorld s Hs)
    as [(w' & Hrun & Hs' & _) _].
  - vm_compute in Hs. injection Hs as <-. reflexivity.
  - vm_compute in Hs. injection Hs as <-. reflexivity.
  - exists w'. split; assumption.
Defined.

(** C7. Whatever the engine went through, [reset()] on an engine that has a
    session rewinds the round to 1, the phase index to 0, the time remaining
    to the first phase's duration, the elapsed time to 0, the count to 1 and
    the direction to up; the pattern and the number of breaths are kept. *)
Theorem reset_rewinds (w : World) (s : BreathSession) :
  session (engine w) = Some s ->
  exists w' s',
    reset w = Returned tt w' /\
    session (engine w') = Some s' /\
    currentRound s' = 1 /\
    currentPhaseIndex s' = 0 /\
    timeRemaining s' = durationOrZero (at_index (phases (pattern s)) 0) /\
    (forall p rest, phases (pattern s) = p :: rest ->
                    timeRemaining s' = duration p) /\
    elapsedTime s' = 0 /\
    currentCount (engine w') = 1 /\
    countingDirection (engine w') = Direction.up /\
    pattern s' = pattern s /\
    breaths s' = breaths s /\
    isActive s' = false /\
    isPaused s' = false.
Proof.
  intros Hs. destruct_world w. cbn in Hs. subst.
  destruct s as [? ? ? ? ? ? ? ? ?]. js_unfold. js_simp.
  destruct timer0; js_simp; do 2 eexists; (split; [reflexivity|]); js_simp;
    (split; [reflexivity|]); repeat split; try reflexivity;
    intros p rest ->; reflexivity.
Qed.

Lemma reset_rewinds_witness :
  exists w' s',
    reset pausedWorld = Returned tt w' /\
    session (engine w') = Some s' /\
    currentRound s' = 1 /\ currentPhaseIndex s' = 0 /\
    elapsedTime s' = 0 /\ isActive s' = false.
Proof.
  destruct (session (engine pausedWorld)) as [s|] eqn:Hs; [|discriminate Hs].
  destruct (reset_rewinds pausedWorld s Hs)
    as (w' & s' & Hrun & Hs' & Hr & Hi & _ & _ & He & _ & _ & _ & _ & Ha & _).
  exists w', s'. repeat split; assumption.
Defined.

(** ** Case analysis of one operation *)

Ltac split_if :=
  match goal with
  | |- context [if ?c then _ else _] => destruct c eqn:?
  | |- context [match at_index ?l ?i with _ => _ end] =>
      destruct (at_index l i) eqn:?
  | |- context [match ?x with Some _ => _ | None => _ end] => destruct x eqn:?
  end.

Ltac js_auto := js_simp; repeat (split_if; js_simp).

Ltac op_cases op w :=
  destruct_world w;
  match goal with
  | s : option BreathSession |- _ => destruct s as [[? ? ? ? ? ? ? ? ?]|]
  end;
  destruct op; unfold step, exec, addEventListener, removeEventListener,
    setSoundCallback, elapse; js_unfold; js_auto.

Ltac norm_emitted :=
  js_cbn;
  repeat (progress (rewrite ?emitted_app, ?emitted_emission, ?ucs_emitted);
          js_cbn);
  rewrite <- ?app_assoc, ?app_nil_r.

Lemma step_emits op w :
  exists delta,
    emitted (trace (step op w)) = emitted (trace w) ++ delta /\
    completeAfterStop None delta = true.
Proof.
  op_cases op w; norm_emitted;
    try first [ exists []; split; [symmetry; apply app_nil_r | reflexivity]
          | eexists; split; reflexivity ].
Qed.

Lemma completeAfterStop_weaken prev evs :
  completeAfterStop None evs = true -> completeAfterStop prev evs = true.
Proof.
  destruct evs as [|ev evs]; [reflexivity|]. cbn.
  destruct (isType EventType.sessionComplete ev); [discriminate|auto].
Qed.

Lemma completeAfterStop_app prev l1 l2 :
  completeAfterStop prev l1 = true -> completeAfterStop None l2 = true ->
  completeAfterStop prev (l1 ++ l2) = true.
Proof.
  revert prev. induction l1 as [|ev l1 IH]; intros prev H1 H2.
  - now apply completeAfterStop_weaken.
  - cbn in *. apply andb_true_iff in H1 as [Hh Ht].
    rewrite Hh. cbn. auto.
Qed.

Lemma run_emits ops w :
  exists delta,
    emitted (trace (run ops w)) = emitted (trace w) ++ delta /\
    completeAfterStop None delta = true.
Proof.
  revert w. induction ops as [|op ops IH]; intro w.
  - exists []. split; [symmetry; apply app_nil_r | reflexivity].
  - cbn. destruct (IH (step op w)) as (d2 & E2 & H2).
    destruct (step_emits op w) as (d1 & E1 & H1).
    exists (d1 ++ d2). split.
    + unfold run in E2. rewrite E2, E1, app_assoc. reflexivity.
    + now apply completeAfterStop_app.
Qed.

(** C10. There is no event type for starting: [start()] on an engine that
    has a session emits exactly one event, of type [resume].  Completing a
    session emits [stop] and then [sessionComplete], nothing in between; and
    whatever the engine is made to do, in the events it emits every
    [sessionComplete] comes directly after a [stop]. *)
Theorem start_emits_resume_and_stop_precedes_complete :
  (forall w s,
     session (engine w) = Some s ->
     exists w',
       start w = Returned tt w' /\
       emitted (trace w') = emitted (trace w) ++ [event EventType.resume]) /\
  (forall w,
     exists w',
       completeSession w = Returned tt w' /\
       emitted (trace w')
       = emitted (trace w)
         ++ [event EventType.stop; event EventType.sessionComplete]) /\
  (forall ops w,
     exists delta,
       emitted (trace (run ops w)) = emitted (trace w) ++ delta /\
       completeAfterStop None delta = true) /\
  (forall ops,
     completeAfterStop None (emitted (trace (run ops newWorld))) = true).
Proof.
  split; [|split; [|split]].
  - intros w s Hs. destruct_world w. cbn in Hs. subst.
    destruct s as [? ? ? ? ? ? ? ? ?]. js_unfold. js_simp.
    eexists. split; [reflexivity|]. norm_emitted. reflexivity.
  - intro w. control w; destruct timer0; js_simp;
      eexists; (split; [reflexivity|]); norm_emitted; reflexivity.
  - intros ops w. apply run_emits.
  - intros ops. destruct (run_emits ops newWorld) as (d & E & H).
    rewrite E. exact H.
Qed.

Lemma start_emits_resume_witness :
  exists w',
    start (world_of (createSession boxBreathing 2 newWorld)) = Returned tt w' /\
    emitted (trace w') = [event EventType.resume].
Proof.
  destruct (session (engine (world_of (createSession boxBreathing 2 newWorld))))
    as [s|] eqn:Hs; [|discriminate Hs].
  exact (proj1 start_emits_resume_and_stop_precedes_complete _ s Hs).
Defined.

(** ** The counting rule is an invariant *)

Lemma step_countingOk op w : countingOk w -> countingOk (step op w).
Proof.
  intro H. op_cases op w.
  all: unfold countingOk in *; js_cbn_all; intros s p Hs Ha Hp.
  all: try discriminate.
  all: try (injection Hs as Hs; subst s; js_cbn_all).
  all: try discriminate.
  all: try (match goal with
      | |- countingRule _ _ (countAfter ?W) _ =>
          refine (ucs_counts W _ p eq_refl _ _); js_cbn; assumption
      end).
  all: try exact (H _ p eq_refl Ha Hp).
  all: match goal with
       | H1 : ?x = None, H2 : ?x = Some _ |- _ =>
           rewrite H1 in H2; discriminate H2
       end.
Qed.

(** ** Rounds and completion *)

Lemma count_type_app ty l1 l2 :
  count_type ty (l1 ++ l2) = (count_type ty l1 + count_type ty l2)%nat.
Proof. unfold count_type. rewrite filter_app, length_app. reflexivity. Qed.

Lemma count_after ty l d :
  (count_type ty (l ++ d) - count_type ty l)%nat = count_type ty d.
Proof. rewrite count_type_app. lia. Qed.

Ltac bools :=
  repeat match goal with
         | H : (_ <=? _) = true |- _ => apply Z.leb_le in H
         | H : (_ <=? _) = false |- _ => apply Z.leb_gt in H
         | H : (_ <? _) = true |- _ => apply Z.ltb_lt in H
         | H : (_ <? _) = false |- _ => apply Z.ltb_ge in H
         | H : _ || _ = false |- _ => apply orb_false_iff in H as [? ?]
         | H : negb _ = false |- _ => apply negb_false_iff in H
         end.

Lemma step_roundOk op w k :
  validOp op -> roundOk k w ->
  roundOk (match op with
           | OpCreateSession _ _ | OpReset => 0%nat
           | _ => (k + completedBetween w (step op w))%nat
           end) (step op w).
Proof.
  intros Hv (s & Hs & Hb & Hr). unfold completedBetween.
  op_cases op w; try discriminate Hs.
  all: js_cbn_all; injection Hs as Hs; subst s; js_cbn_all.
  all: norm_emitted; rewrite ?count_after, ?Nat.sub_diag; cbn [Nat.add];
    unfold count_type; cbn -[Z.add Z.sub Z.of_nat].
  all: bools; unfold roundOk; js_cbn;
    rewrite ?Nat.add_0_r, ?Nat.add_1_r;
    eexists; (split; [reflexivity|]); js_cbn; (split; [assumption || lia|]).
  all: try assumption.
  all: try (destruct k; js_cbn_all; lia).
Qed.

Lemma run_roundOk ops : forall w k,
  Forall validOp ops -> roundOk k w ->
  roundOk (completions k ops w) (run ops w).
Proof.
  induction ops as [|op ops IH]; intros w k Hv Hk; [exact Hk|].
  inversion Hv as [|? ? Hop Hops]; subst. cbn.
  apply IH; [assumption|]. now apply step_roundOk.
Qed.

(** C8, as the claim has it, fails: [start()] accepts a completed session,
    and the next completion takes [currentRound] to [breaths + 2]. *)
Lemma restart_after_completion_overshoots :
  exists s,
    session (engine restartedWorld) = Some s /\
    breaths s = 1 /\ isActive s = false /\
    count_type EventType.sessionComplete (emitted (trace restartedWorld)) = 2%nat /\
    currentRound s = 3 /\
    currentRound s <> breaths s + 1.
Proof.
  eexists. split; [vm_compute; reflexivity|].
  repeat split; try (vm_compute; reflexivity). discriminate.
Qed.

(** C8, amended.  A session created with at least one breath starts at round
    1.  Whatever is done to the engine afterwards, [currentRound] exceeds
    [breaths] exactly when the session has completed since its creation or
    last [reset()]: before that [1 <= currentRound <= breaths], and after [k]
    completions [currentRound = breaths + k], which is [breaths + 1] unless
    the completed session was started again. *)
Theorem round_exceeds_breaths_iff_completed
  (w0 : World) (P : BreathPattern) (N : Z) (ops : list Op) :
  1 <= N -> Forall validOp ops ->
  let w1 := step (OpCreateSession P N) w0 in
  let k := completions 0 ops w1 in
  (exists s1, session (engine w1) = Some s1 /\
              currentRound s1 = 1 /\ breaths s1 = N) /\
  (exists s,
     session (engine (run ops w1)) = Some s /\
     1 <= currentRound s /\
     (breaths s < currentRound s <-> (0 < k)%nat) /\
     (k = 0%nat -> currentRound s <= breaths s) /\
     (forall j, k = S j -> currentRound s = breaths s + 1 + Z.of_nat j)).
Proof.
  intros HN Hv w1 k.
  assert (H1 : exists s1, session (engine w1) = Some s1 /\
                          currentRound s1 = 1 /\ breaths s1 = N).
  { subst w1. destruct_world w0. unfold step, exec. js_unfold. js_simp.
    eexists. split; [reflexivity|]. split; reflexivity. }
  split; [exact H1|].
  assert (H0 : roundOk 0 w1).
  { destruct H1 as (s1 & Hs1 & Hr1 & Hb1). exists s1. split; [exact Hs1|]. cbn. lia. }
  destruct (run_roundOk ops w1 0%nat Hv H0) as (s & Hs & Hb & Hr).
  fold k in Hr. clearbody k. exists s. split; [exact Hs|].
  destruct k as [|j]; repeat split; try lia;
    intros j' Hj; (discriminate Hj || (injection Hj as <-; lia)).
Qed.

Lemma round_exceeds_breaths_iff_completed_witness :
  exists s,
    session
      (engine
         (run [OpStart; OpFire 1%nat; OpStart; OpFire 2%nat]
            (step (OpCreateSession (customPattern [phase PhaseType.inhale 1]) 1)
               newWorld)))
    = Some s /\
    currentRound s = breaths s + 1 + 1.
Proof.
  destruct (round_exceeds_breaths_iff_completed newWorld
              (customPattern [phase PhaseType.inhale 1]) 1
              [OpStart; OpFire 1%nat; OpStart; OpFire 2%nat])
    as (_ & s & Hs & _ & _ & _ & Hk).
  - lia.
  - repeat constructor.
  - exists s. split; [exact Hs|]. apply (Hk 1%nat). vm_compute. reflexivity.
Defined.

(** ** The timer slot *)

(** C3 at its failing input: [start()] on a running session registers a
    second interval without clearing the first.  Both are live; when each
    has fired once, two seconds of the session are gone; [pause()] reaches
    only the one in the slot. *)
Lemma second_start_leaks_timer :
  intervals doubleStarted = [1%nat; 2%nat] /\
  timer (engine doubleStarted) = Some 2%nat /\
  option_map elapsedTime
    (session (engine (run [OpFire 1%nat; OpFire 2%nat] doubleStarted)))
  = Some 2 /\
  intervals (step OpPause doubleStarted) = [1%nat].
Proof. repeat split; vm_compute; reflexivity. Qed.

Lemma step_timerOk op w : timerOk w -> timerOk (step op w).
Proof.
  intros [Hl Hr]. op_cases op w.
  all: unfold timerOk, live in *; js_cbn_all; split;
    [intros h' Hh' | intros s' Hs' Ha Hp].
  all: try discriminate.
  all: try (injection Hs' as Hs'; subst s'; js_cbn_all).
  all: try discriminate.
  all: try (injection Hh' as Hh'; subst h').
  all: try (now apply Hl).
  all: try (eapply Hr; [reflexivity|eassumption..]).
  all: try (rewrite existsb_app; cbn; rewrite Nat.eqb_refl; apply orb_true_r).
  all: subst; discriminate.
Qed.

(** ** Counting *)

Lemma run_invariant (I : World -> Prop) :
  (forall op w, I w -> I (step op w)) ->
  forall ops w, I w -> I (run ops w).
Proof.
  intros Hstep. induction ops as [|op ops IH]; intros w Hw; [exact Hw|].
  cbn. apply IH, Hstep, Hw.
Qed.

Lemma reachable_countingOk w : reachable w -> countingOk w.
Proof.
  intros [ops ->]. apply run_invariant; [apply step_countingOk|].
  intros s p Hs. discriminate Hs.
Qed.

Lemma reachable_timerOk w : reachable w -> timerOk w.
Proof.
  intros [ops ->]. apply run_invariant; [apply step_timerOk|].
  split; [intros h Hh | intros s Hs]; discriminate.
Qed.

Lemma reachable_step op w : reachable w -> reachable (step op w).
Proof.
  intros [ops ->]. exists (ops ++ [op]). unfold run.
  rewrite fold_left_app. reflexivity.
Qed.

Lemma reachable_tick w : reachable w -> reachable (world_of (tick w)).
Proof.
  intro H. destruct (timer (engine w)) as [h|] eqn:Ht.
  - replace (world_of (tick w)) with (step (OpFire h) w);
      [now apply reachable_step|].
    unfold step, exec, tick, bind, this. cbn. rewrite Ht. reflexivity.
  - replace (world_of (tick w)) with w; [exact H|].
    unfold tick, bind, this. cbn. rewrite Ht. reflexivity.
Qed.

(** One tick in the middle of a phase. *)
Lemma tick_within w s p :
  timerOk w ->
  session (engine w) = Some s -> isActive s = true -> isPaused s = false ->
  at_index (phases (pattern s)) (currentPhaseIndex s) = Some p ->
  1 < timeRemaining s ->
  exists s',
    session (engine (world_of (tick w))) = Some s' /\
    secondsLater 1 s s' /\
    countingRule p (timeRemaining s')
      (currentCount (engine (world_of (tick w))))
      (countingDirection (engine (world_of (tick w)))) /\
    emitted (trace (world_of (tick w))) = emitted (trace w).
Proof.
  intros [Hl Hr] Hs Ha Hp Hph Ht.
  specialize (Hr s Hs Ha Hp).
  destruct (timer (engine w)) as [h|] eqn:Hh; [clear Hr|congruence].
  specialize (Hl h eq_refl). unfold live in Hl.
  destruct_world w. cbn in Hs, Hh, Hl. subst.
  destruct s as [? ? ? ? ? ? ? ? ?]. cbn in Ha, Hp, Hph, Ht. subst.
  js_unfold. js_simp.
  destruct (Z.leb_spec (timeRemaining0 - 1) 0); [lia|]. js_simp.
  eexists. split; [reflexivity|]. split; [repeat split|]. split.
  - match goal with
    | |- countingRule _ _ (countAfter ?W) _ =>
        refine (ucs_counts W _ p eq_refl _ _); js_cbn; [reflexivity|assumption]
    end.
  - norm_emitted. reflexivity.
Qed.

(** [k] ticks from the start of a phase, for [k] less than its duration. *)
Lemma ticks_within k : forall w s p,
  reachable w ->
  session (engine w) = Some s -> isActive s = true -> isPaused s = false ->
  at_index (phases (pattern s)) (currentPhaseIndex s) = Some p ->
  Z.of_nat k < timeRemaining s ->
  exists s',
    session (engine (ticks k w)) = Some s' /\
    secondsLater (Z.of_nat k) s s' /\
    countingRule p (timeRemaining s')
      (currentCount (engine (ticks k w)))
      (countingDirection (engine (ticks k w))).
Proof.
  induction k as [|k IH]; intros w s p Hw Hs Ha Hp Hph Ht.
  - exists s. split; [exact Hs|]. split.
    + unfold secondsLater. repeat split; cbn; lia.
    + now apply (reachable_countingOk w Hw).
  - destruct (tick_within w s p (reachable_timerOk w Hw) Hs Ha Hp Hph)
      as (s1 & Hs1 & H1 & _); [lia|].
    destruct H1 as (E1 & E2 & E3 & E4 & E5 & E6 & E7 & E8 & E9).
    destruct (IH (world_of (tick w)) s1 p) as (s' & Hs' & H' & Hc);
      try congruence.
    + now apply reachable_tick.
    + lia.
    + exists s'. split; [exact Hs'|]. split; [|exact Hc].
      destruct H' as (F1 & F2 & F3 & F4 & F5 & F6 & F7 & F8 & F9).
      unfold secondsLater. repeat split; try congruence; lia.
Qed.

Lemma count_at_second k w s p :
  reachable w ->
  session (engine w) = Some s -> isActive s = true -> isPaused s = false ->
  at_index (phases (pattern s)) (currentPhaseIndex s) = Some p ->
  timeRemaining s = duration p ->
  (k < Z.to_nat (duration p))%nat ->
  exists s',
    session (engine (ticks k w)) = Some s' /\
    secondsLater (Z.of_nat k) s s' /\
    match type p with
    | PhaseType.pause =>
        currentCount (engine (ticks k w)) = duration p - Z.of_nat k /\
        countingDirection (engine (ticks k w)) = Direction.down
    | _ =>
        currentCount (engine (ticks k w)) = Z.of_nat k + 1 /\
        countingDirection (engine (ticks k w)) = Direction.up
    end.
Proof.
  intros Hw Hs Ha Hp Hph Hd Hk.
  destruct (ticks_within k w s p Hw Hs Ha Hp Hph) as (s' & Hs' & H' & Hc);
    [lia|].
  exists s'. split; [exact Hs'|]. split; [exact H'|].
  destruct H' as (_ & _ & _ & _ & _ & _ & _ & Ht & _).
  unfold countingRule in Hc. rewrite Ht, Hd in Hc.
  destruct (type p); destruct Hc as [-> ->]; split; auto; lia.
Qed.

(** C2. In every state the engine can reach, an active session standing on
    an inhale, hold or exhale phase shows [min (elapsed + 1) duration] with
    direction up, and on a pause phase it shows the time remaining (at least
    1) with direction down.  From the start of a running phase of duration
    [D], the count on display after [k] ticks, for every [k < D], is [k + 1]
    on an inhale, hold or exhale phase and [D - k] on a pause phase: during
    the [D] seconds of the phase the display reads 1, 2, ..., [D],
    respectively [D], [D - 1], ..., 1, moving by one at each tick. *)
Theorem counting_semantics :
  (forall w s p,
     reachable w ->
     session (engine w) = Some s -> isActive s = true ->
     at_index (phases (pattern s)) (currentPhaseIndex s) = Some p ->
     let elapsed := duration p - timeRemaining s in
     match type p with
     | PhaseType.pause =>
         currentCount (engine w) = Z.max (timeRemaining s) 1 /\
         countingDirection (engine w) = Direction.down
     | _ =>
         currentCount (engine w) = Z.min (elapsed + 1) (duration p) /\
         countingDirection (engine w) = Direction.up
     end) /\
  (forall w s p k,
     reachable w ->
     session (engine w) = Some s -> isActive s = true -> isPaused s = false ->
     at_index (phases (pattern s)) (currentPhaseIndex s) = Some p ->
     timeRemaining s = duration p ->
     (k < Z.to_nat (duration p))%nat ->
     exists s',
       session (engine (ticks k w)) = Some s' /\
       secondsLater (Z.of_nat k) s s' /\
       match type p with
       | PhaseType.pause =>
           currentCount (engine (ticks k w)) = duration p - Z.of_nat k /\
           countingDirection (engine (ticks k w)) = Direction.down
       | _ =>
           currentCount (engine (ticks k w)) = Z.of_nat k + 1 /\
           countingDirection (engine (ticks k w)) = Direction.up
       end) /\
  (forall w s p,
     reachable w ->
     session (engine w) = Some s -> isActive s = true -> isPaused s = false ->
     at_index (phases (pattern s)) (currentPhaseIndex s) = Some p ->
     timeRemaining s = duration p ->
     countsDuring (Z.to_nat (duration p)) w
     = match type p with
       | PhaseType.pause => countDown (Z.to_nat (duration p))
       | _ => countUp (Z.to_nat (duration p))
       end).
Proof.
  split; [|split].
  - intros w s p Hw Hs Ha Hph elapsed. subst elapsed.
    exact (reachable_countingOk w Hw s p Hs Ha Hph).
  - intros w s p k. apply count_at_second.
  - intros w s p Hw Hs Ha Hp Hph Hd.
    assert (H : forall k, (k < Z.to_nat (duration p))%nat ->
              currentCount (engine (ticks k w))
              = match type p with
                | PhaseType.pause => duration p - Z.of_nat k
                | _ => Z.of_nat k + 1
                end).
    { intros k Hk.
      destruct (count_at_second k w s p Hw Hs Ha Hp Hph Hd Hk)
        as (s' & _ & _ & Hc).
      destruct (type p); destruct Hc as [Hc _]; exact Hc. }
    unfold countsDuring, countUp, countDown.
    destruct (type p); apply map_ext_in; intros k Hk;
      apply in_seq in Hk; rewrite H by lia; lia.
Qed.

Lemma counting_semantics_witness :
  countsDuring 3 (run [OpCreateSession inhalePause 2; OpStart] newWorld)
  = [1; 2; 3] /\
  countsDuring 2
    (run [OpCreateSession inhalePause 2; OpStart;
          OpFire 1%nat; OpFire 1%nat; OpFire 1%nat] newWorld)
  = [2; 1].
Proof.
  destruct counting_semantics as (_ & _ & H). split.
  - refine (H (run [OpCreateSession inhalePause 2; OpStart] newWorld)
              _ (phase PhaseType.inhale 3) _ _ _ _ _ _);
      [eexists; reflexivity | vm_compute; reflexivity | reflexivity..].
  - refine (H (run [OpCreateSession inhalePause 2; OpStart;
                    OpFire 1%nat; OpFire 1%nat; OpFire 1%nat] newWorld)
              _ (phase PhaseType.pause 2) _ _ _ _ _ _);
      [eexists; reflexivity | vm_compute; reflexivity | reflexivity..].
Defined.

(** ** A session runs to completion *)

Lemma fold_left_durations ps a :
  fold_left (fun total phase => total + duration phase) ps a
  = a + sumDurations ps.
Proof.
  revert a. induction ps as [|p ps IH]; intro a; cbn; [lia|].
  rewrite IH. lia.
Qed.

Lemma calculateTotalTime_sum P N :
  calculateTotalTime P N = sumDurations (phases P) * N.
Proof. unfold calculateTotalTime. rewrite fold_left_durations. lia. Qed.

Lemma at_index_nat {A} (l : list A) (i : nat) :
  at_index l (Z.of_nat i) = nth_error l i.
Proof.
  unfold at_index. destruct (Z.ltb_spec (Z.of_nat i) 0); [lia|].
  rewrite Nat2Z.id. reflexivity.
Qed.

Lemma skipn_nth {A} (l : list A) i x :
  nth_error l i = Some x -> skipn i l = x :: skipn (S i) l.
Proof.
  revert i. induction l as [|y l IH]; intros [|i] H; try discriminate.
  - injection H as ->. reflexivity.
  - cbn in H. cbn. now apply IH.
Qed.

Lemma sumDurations_pos ps :
  Forall (fun p => 1 <= duration p) ps -> 0 <= sumDurations ps.
Proof. induction 1; cbn; lia. Qed.

Lemma count_type_cons ty ev evs :
  count_type ty (ev :: evs)
  = ((if isType ty ev then 1 else 0) + count_type ty evs)%nat.
Proof. unfold count_type, isType. cbn. destruct (EventType.eqb _ _); reflexivity. Qed.

Section Session.
Variables (P : BreathPattern) (N : Z) (base : list EngineEvent.t).
Hypothesis nonempty : phases P <> [].
Hypothesis positive : Forall (fun p => 1 <= duration p) (phases P).
Hypothesis rounds : 1 <= N.

Lemma sum_rest_nonneg i : 0 <= sumDurations (skipn i (phases P)).
Proof.
  apply sumDurations_pos. apply Forall_forall. intros p Hp.
  apply (proj1 (Forall_forall _ _) positive).
  rewrite <- (firstn_skipn i (phases P)). apply in_or_app. now right.
Qed.

Lemma sum_round_pos : 1 <= sumDurations (phases P).
Proof.
  destruct (phases P) as [|p ps] eqn:E; [contradiction|].
  inversion positive as [|? ? Hp Hps]; subst. cbn.
  pose proof (sumDurations_pos ps Hps). lia.
Qed.

Lemma phase_positive i p : nth_error (phases P) i = Some p -> 1 <= duration p.
Proof.
  intro H. apply nth_error_In in H.
  exact (proj1 (Forall_forall _ _) positive p H).
Qed.

Ltac count_events :=
  rewrite ?count_type_app, ?count_type_cons;
  cbn -[count_type Z.of_nat Z.add Z.sub Z.mul];
  unfold count_type at 2; cbn -[count_type Z.of_nat Z.add Z.sub Z.mul].

Ltac events_from Hem :=
  norm_emitted; rewrite Hem, <- ?app_assoc; cbn [app]; reflexivity.

Lemma tick_ticking left w :
  ticking P N base left w ->
  (2 <= left /\ ticking P N base (left - 1) (world_of (tick w))) \/
  (left = 1 /\ completed P N base (world_of (tick w))).
Proof.
  intros (s & h & i & delta & Hs & Hh & Hl & HP & HN & Ha & Hp & Hi & Hlen
          & Hr & Ht & Hleft & Htot & Hel & Hem & Hrc & Hsc).
  pose proof (sum_rest_nonneg (S i)) as Hrest.
  pose proof sum_round_pos as Hround.
  unfold live in Hl. destruct_world w. cbn in Hs, Hh, Hl, Hem.
  subst session0 timer0.
  destruct s as [? ? ? ? ? ? ? ? ?].
  cbn [pattern breaths currentRound currentPhaseIndex timeRemaining isActive
       isPaused totalTime elapsedTime] in *.
  subst pattern0 breaths0 isActive0 isPaused0 currentPhaseIndex0 totalTime0.
  js_unfold. js_auto; bools.
  - (* the last second of the last phase of the last round *)
    right.
    assert (Hskip : skipn (S i) (phases P) = []) by (apply skipn_all2; lia).
    rewrite Hskip in Hleft. cbn [sumDurations] in Hleft.
    assert (currentRound0 = N) by lia. subst currentRound0.
    split; [nia|].
    unfold completed.
    eexists _, (delta ++ [ {| EngineEvent.type := EventType.roundComplete;
                              EngineEvent.data := RoundCompleteData (N + 1 - 1) N |};
                           event EventType.stop;
                           event EventType.sessionComplete ]).
    js_cbn.
    split; [reflexivity|]. js_cbn.
    repeat (split; [reflexivity || lia || nia|]).
    split; [events_from Hem|].
    split; count_events; lia.
  - (* the last second of a round that is not the last *)
    left.
    assert (Hskip : skipn (S i) (phases P) = []) by (apply skipn_all2; lia).
    rewrite Hskip in Hleft. cbn [sumDurations] in Hleft.
    change 0 with (Z.of_nat 0) in Heqo. rewrite at_index_nat in Heqo.
    pose proof (phase_positive _ _ Heqo) as Hpos.
    pose proof (skipn_nth _ _ _ Heqo) as Hsk. cbn [skipn] in Hsk.
    assert (Hsum : sumDurations (phases P)
                   = duration b + sumDurations (skipn 1 (phases P)))
      by (rewrite Hsk at 1; reflexivity).
    split; [nia|].
    unfold ticking.
    eexists _, h, 0%nat,
      (delta ++ [ {| EngineEvent.type := EventType.roundComplete;
                     EngineEvent.data :=
                       RoundCompleteData (currentRound0 + 1 - 1) N |};
                  {| EngineEvent.type := EventType.phaseChange;
                     EngineEvent.data :=
                       PhaseChangeData b 0 (currentRound0 + 1) |} ]).
    js_cbn. unfold live. js_cbn.
    split; [reflexivity|]. js_cbn.
    repeat (split; [reflexivity || assumption || lia || nia|]).
    split; [events_from Hem|].
    split; count_events; lia.
  - (* no first phase: excluded *)
    change 0 with (Z.of_nat 0) in Heqo. rewrite at_index_nat in Heqo.
    destruct (phases P); [contradiction|discriminate].
  - (* the last second of a phase that is not the last of its round *)
    left.
    replace (Z.of_nat i + 1) with (Z.of_nat (S i)) in Heqo by lia.
    rewrite at_index_nat in Heqo.
    pose proof (phase_positive _ _ Heqo) as Hpos.
    pose proof (skipn_nth _ _ _ Heqo) as Hsk.
    rewrite Hsk in Hleft, Hrest. cbn [sumDurations] in Hleft, Hrest.
    pose proof (sum_rest_nonneg (S (S i))) as Hrest'.
    split; [nia|].
    unfold ticking.
    eexists _, h, (S i),
      (delta ++ [ {| EngineEvent.type := EventType.phaseChange;
                     EngineEvent.data :=
                       PhaseChangeData b (Z.of_nat i + 1) currentRound0 |} ]).
    js_cbn. unfold live. js_cbn.
    split; [reflexivity|]. js_cbn.
    repeat (split; [reflexivity || assumption || lia || nia|]).
    split; [events_from Hem|].
    split; count_events; lia.
  - (* no next phase although the index is in range: excluded *)
    replace (Z.of_nat i + 1) with (Z.of_nat (S i)) in Heqo by lia.
    rewrite at_index_nat in Heqo. apply nth_error_None in Heqo. lia.
  - (* a second in the middle of a phase *)
    left. split; [nia|].
    unfold ticking. eexists _, h, i, delta. js_cbn. unfold live. js_cbn.
    split; [reflexivity|]. js_cbn.
    repeat (split; [reflexivity || assumption || lia || nia|]).
    split; [norm_emitted; exact Hem|].
    split; assumption.
Qed.

Lemma ticks_complete n : forall w,
  ticking P N base (Z.of_nat (S n)) w -> completed P N base (ticks (S n) w).
Proof.
  induction n as [|n IH]; intros w H; cbn [ticks];
    destruct (tick_ticking _ _ H) as [[H2 Ht]|[H1 Hc]]; try lia.
  - exact Hc.
  - apply IH. replace (Z.of_nat (S n)) with (Z.of_nat (S (S n)) - 1) by lia.
    exact Ht.
Qed.

Lemma started_ticking w0 :
  emitted (trace w0) = base ->
  ticking P N base (sumDurations (phases P) * N)
    (run [OpCreateSession P N; OpStart] w0).
Proof.
  intro Hbase.
  destruct (nth_error (phases P) 0) as [p0|] eqn:E0.
  2: { apply nth_error_None in E0. destruct (phases P); [contradiction|].
       cbn in E0. lia. }
  assert (H0 : at_index (phases P) 0 = Some p0) by exact E0.
  pose proof (skipn_nth _ _ _ E0) as Hsk. cbn [skipn] in Hsk.
  assert (Hsum : sumDurations (phases P)
                 = duration p0 + sumDurations (skipn 1 (phases P)))
    by (rewrite Hsk at 1; reflexivity).
  pose proof (phase_positive _ _ E0) as Hpos.
  assert (Hlen : (0 < List.length (phases P))%nat)
    by (apply nth_error_Some; congruence).
  destruct_world w0. cbn in Hbase.
  unfold run, step, exec. cbn [fold_left]. js_unfold. js_simp.
  unfold ticking.
  eexists _, nextHandle0, 0%nat, [event EventType.resume].
  js_cbn. unfold live. js_cbn.
  split; [reflexivity|]. js_cbn.
  split; [reflexivity|].
  split; [rewrite existsb_app; cbn; rewrite Nat.eqb_refl; apply orb_true_r|].
  rewrite calculateTotalTime_sum.
  repeat (split; [reflexivity || assumption || lia || nia|]).
  split; [norm_emitted; rewrite Hbase; reflexivity|].
  split; reflexivity.
Qed.
End Session.

(** C1. Take a pattern with at least one phase, every phase lasting at least
    a second, and [N >= 1] rounds.  After [createSession], [start()] and as
    many ticks of the timer as the phases' durations sum to, times [N], the
    session is completed: inactive, not paused, with [currentRound = N + 1],
    all its seconds elapsed and the timer cleared; and since the session was
    created exactly [N] [roundComplete] events and one [sessionComplete]
    event have been emitted. *)
Theorem session_runs_to_completion (w0 : World) (P : BreathPattern) (N : Z) :
  phases P <> [] ->
  Forall (fun p => 1 <= duration p) (phases P) ->
  1 <= N ->
  let w1 := run [OpCreateSession P N; OpStart] w0 in
  let w2 := ticks (Z.to_nat (sumDurations (phases P) * N)) w1 in
  exists s delta,
    session (engine w2) = Some s /\
    pattern s = P /\ breaths s = N /\
    isActive s = false /\ isPaused s = false /\
    currentRound s = N + 1 /\
    elapsedTime s = totalTime s /\
    timer (engine w2) = None /\
    emitted (trace w2) = emitted (trace w0) ++ delta /\
    count_type EventType.roundComplete delta = Z.to_nat N /\
    count_type EventType.sessionComplete delta = 1%nat.
Proof.
  intros Hne Hpos HN w1 w2.
  pose proof (sum_round_pos P Hne Hpos) as Hsum.
  pose proof (started_ticking P N (emitted (trace w0)) Hne Hpos HN w0 eq_refl)
    as Hstart.
  fold w1 in Hstart.
  destruct (Z.to_nat (sumDurations (phases P) * N)) as [|n] eqn:En; [nia|].
  replace (sumDurations (phases P) * N) with (Z.of_nat (S n)) in Hstart by lia.
  subst w2.
  destruct (ticks_complete P N (emitted (trace w0)) Hne Hpos HN n w1 Hstart)
    as (s & delta & Hs & Ht & HP & HB & Ha & Hp & Hr & Htot & Hel & Hem
        & Hrc & Hsc).
  exists s, delta. repeat split; try assumption; try congruence; lia.
Qed.

Lemma session_runs_to_completion_witness :
  let w2 := ticks (Z.to_nat (sumDurations (phases boxBreathing) * 2))
              (run [OpCreateSession boxBreathing 2; OpStart] newWorld) in
  exists s delta,
    session (engine w2) = Some s /\
    pattern s = boxBreathing /\ breaths s = 2 /\
    isActive s = false /\ isPaused s = false /\
    currentRound s = 2 + 1 /\
    elapsedTime s = totalTime s /\
    timer (engine w2) = None /\
    emitted (trace w2) = emitted (trace newWorld) ++ delta /\
    count_type EventType.roundComplete delta = Z.to_nat 2 /\
    count_type EventType.sessionComplete delta = 1%nat.
Proof.
  apply (session_runs_to_completion newWorld boxBreathing 2).
  - discriminate.
  - repeat constructor; cbn; lia.
  - lia.
Defined.

(** * More properties of the engine *)

(** ** The sound callback *)

Ltac x_cbn :=
  cbn -[updateCountingState countAfter directionAfter traceAfter spoken
        emitEvent emission count_type skipn sumDurations calculateTotalTime
        sounds notified
        Z.add Z.sub Z.mul Z.leb Z.ltb Z.eqb Z.min Z.max Z.of_nat at_index
        Nat.eqb].

Lemma skipn_length_app {A} (l l' : list A) :
  skipn (List.length l) (l ++ l') = l'.
Proof. induction l; cbn; auto. Qed.

(** [updateCountingState] calls the sound callback at most once, and only
    the callback that is set, with the count it has just computed; it calls
    it when the count changed or no second of the session has elapsed. *)
Lemma spoken_cases w :
  traceAfter w = trace w ++ spoken w /\
  (spoken w = [] \/
   exists cb s p,
     soundCallback (engine w) = Some cb /\
     session (engine w) = Some s /\ isActive s = true /\
     at_index (phases (pattern s)) (currentPhaseIndex s) = Some p /\
     (countAfter w <> currentCount (engine w) \/ elapsedTime s = 0) /\
     spoken w = [Sound cb p (countAfter w)]).
Proof.
  assert (H : traceAfter w = trace w /\ spoken w = [] \/
              exists cb s p,
                soundCallback (engine w) = Some cb /\
                session (engine w) = Some s /\ isActive s = true /\
                at_index (phases (pattern s)) (currentPhaseIndex s) = Some p /\
                (countAfter w <> currentCount (engine w) \/ elapsedTime s = 0) /\
                traceAfter w = trace w ++ [Sound cb p (countAfter w)]).
  { unfold spoken, traceAfter, countAfter. destruct_world w.
    destruct session0 as [[? ? ? ? ? ? ? ? ?]|].
    2: { left. cbn. rewrite skipn_all. auto. }
    unfold updateCountingState. js_cbn.
    destruct isActive0; js_cbn.
    2: { left. rewrite skipn_all. auto. }
    destruct (at_index (phases pattern0) currentPhaseIndex0) as [p|] eqn:Hp;
      js_cbn.
    2: { left. rewrite skipn_all. auto. }
    destruct (type p); js_cbn.
    all: match goal with
         | |- context [negb (?a =? ?b) || (?c =? 0)] =>
             destruct (Z.eqb_spec a b) as [Hab|Hab];
             destruct (Z.eqb_spec c 0) as [Hc|Hc]; js_cbn
         end.
    all: destruct soundCallback0 as [cb|]; js_cbn.
    all: try (left; rewrite skipn_all; split; reflexivity).
    all: right; exists cb; eexists; exists p;
      repeat (split; [reflexivity || assumption|]); split; auto. }
  destruct H as [[H1 H2]|(cb & s & p & Hcb & Hs & Ha & Hp & Hc & Ht)].
  - rewrite H1, H2, app_nil_r. split; [reflexivity | left; reflexivity].
  - assert (Hsp : spoken w = [Sound cb p (countAfter w)])
      by (unfold spoken; rewrite Ht; apply skipn_length_app).
    rewrite Hsp. split; [exact Ht|]. right. exists cb, s, p.
    repeat (split; [assumption|]). reflexivity.
Qed.

Lemma traceAfter_spoken w : traceAfter w = trace w ++ spoken w.
Proof. apply spoken_cases. Qed.

Lemma sounds_app t1 t2 : sounds (t1 ++ t2) = sounds t1 ++ sounds t2.
Proof.
  induction t1 as [|x t1 IH]; [reflexivity|].
  destruct x; cbn; rewrite IH; reflexivity.
Qed.

Lemma sounds_emission ev ls : sounds (emission ev ls) = [].
Proof. unfold emission. cbn. induction ls; auto. Qed.

Ltac x_cases op w :=
  destruct_world w;
  match goal with
  | s : option BreathSession |- _ => destruct s as [[? ? ? ? ? ? ? ? ?]|]
  end;
  destruct op; unfold step, exec, addEventListener, removeEventListener,
    setSoundCallback, elapse; js_unfold; js_auto; x_cbn.

Ltac norm_sounds :=
  x_cbn;
  repeat (progress (rewrite ?sounds_app, ?sounds_emission, ?traceAfter_spoken);
          x_cbn);
  cbn [sounds app]; rewrite <- ?app_assoc, ?app_nil_r; cbn [app].

Ltac x_cbn_in H :=
  cbn -[updateCountingState countAfter directionAfter traceAfter spoken
        emitEvent emission count_type skipn sumDurations calculateTotalTime
        sounds notified
        Z.add Z.sub Z.mul Z.leb Z.ltb Z.eqb Z.min Z.max Z.of_nat at_index
        Nat.eqb] in H.

Ltac split_spoken :=
  repeat match goal with
         | |- context [spoken ?W] =>
             let cb := fresh "cb" in
             let s := fresh "s" in
             let p := fresh "p" in
             let Hcb := fresh "Hcb" in
             let Hs := fresh "Hs" in
             let Ha := fresh "Ha" in
             let Hp := fresh "Hp" in
             let Hc := fresh "Hc" in
             destruct (spoken_cases W)
               as [_ [-> | (cb & s & p & Hcb & Hs & Ha & Hp & Hc & ->)]];
             [ | x_cbn_in Hs; x_cbn_in Hcb; injection Hs as Hs; subst s;
                 x_cbn_in Ha; x_cbn_in Hp; x_cbn_in Hc;
                 try discriminate Ha ]
         end.

Lemma step_sounds op w :
  exists d,
    sounds (trace (step op w)) = sounds (trace w) ++ d /\
    (List.length d <= 2)%nat /\
    Forall (fun x => soundCallback (engine w) = Some (fst (fst x))) d /\
    (d <> [] ->
     op = OpStart \/
     exists h, op = OpFire h /\
               hasActiveSession w = true /\ hasPausedSession w = false).
Proof.
  x_cases op w; norm_sounds; split_spoken; norm_sounds.
  all: try (exists []; split; [symmetry; apply app_nil_r|];
            split; [cbn; lia|]; split; [constructor|];
            intro H; now contradiction H).
  all: eexists; (split; [reflexivity|]); (split; [cbn; lia|]);
    (split; [repeat constructor; cbn; assumption|]); intros _.
  all: first [ left; reflexivity
             | right; eexists; split; [reflexivity|];
               unfold hasActiveSession, hasPausedSession; cbn; bools;
               subst; auto ].
Qed.

(** X1. The sound callback is called only by [start()] and by a tick of
    an active, unpaused session; only the callback that is set at that moment
    is called, at most twice per operation. *)
Theorem sound_only_from_start_and_ticks (op : Op) (w : World) :
  exists d,
    sounds (trace (step op w)) = sounds (trace w) ++ d /\
    (List.length d <= 2)%nat /\
    Forall (fun x => soundCallback (engine w) = Some (fst (fst x))) d /\
    (d <> [] ->
     op = OpStart \/
     exists h, op = OpFire h /\
               hasActiveSession w = true /\ hasPausedSession w = false).
Proof. apply step_sounds. Qed.

Lemma step_soundCallback op w :
  (forall cb, op <> OpSetSoundCallback cb) ->
  soundCallback (engine w) = None ->
  soundCallback (engine (step op w)) = None.
Proof.
  intros Hop Hcb. x_cases op w; x_cbn_in Hcb; subst; try reflexivity.
  all: exfalso; eapply Hop; reflexivity.
Qed.

(** X2. Once the sound callback is cleared (by [stop()], [reset()] or
    the completion of a session) nothing the engine does calls a sound
    callback until [setSoundCallback] is called again. *)
Theorem silent_until_callback_set (ops : list Op) (w : World) :
  soundCallback (engine w) = None ->
  (forall cb, ~ In (OpSetSoundCallback cb) ops) ->
  sounds (trace (run ops w)) = sounds (trace w) /\
  soundCallback (engine (run ops w)) = None.
Proof.
  revert w. induction ops as [|op ops IH]; intros w Hcb Hops; [auto|].
  cbn [run fold_left].
  assert (Hop : forall cb, op <> OpSetSoundCallback cb).
  { intros cb ->. apply (Hops cb). now left. }
  destruct (IH (step op w)) as [IH1 IH2].
  - now apply step_soundCallback.
  - intros cb Hin. apply (Hops cb). now right.
  - unfold run in *. rewrite IH1. split; [|exact IH2].
    destruct (step_sounds op w) as (d & Hd & _ & Hall & _).
    rewrite Hd. destruct d as [|x d]; [apply app_nil_r|].
    inversion Hall as [|? ? Hx _]; subst. congruence.
Qed.

Lemma silent_until_callback_set_witness :
  sounds (trace (run [OpStart; OpFire 2%nat; OpFire 2%nat]
                   (run [OpCreateSession boxBreathing 2;
                         OpSetSoundCallback (Some 7%nat); OpStart; OpStop]
                      newWorld)))
  = sounds (trace (run [OpCreateSession boxBreathing 2;
                        OpSetSoundCallback (Some 7%nat); OpStart; OpStop]
                     newWorld)).
Proof.
  apply (silent_until_callback_set [OpStart; OpFire 2%nat; OpFire 2%nat]).
  - vm_compute. reflexivity.
  - intros cb [H|[H|[H|[]]]]; discriminate H.
Defined.

(** ** Intervals *)

Lemma live_filter h h0 l :
  existsb (Nat.eqb h) l = true -> h0 <> h ->
  existsb (Nat.eqb h) (filter (fun h' => negb (Nat.eqb h' h0)) l) = true.
Proof.
  intros Hl Hne. apply existsb_exists in Hl as (x & Hin & Hx).
  apply Nat.eqb_eq in Hx. subst x. apply existsb_exists. exists h. split.
  - apply filter_In. split; [exact Hin|].
    apply negb_true_iff, Nat.eqb_neq. auto.
  - apply Nat.eqb_refl.
Qed.

Lemma live_app h l x :
  existsb (Nat.eqb h) (l ++ [x]) = true ->
  existsb (Nat.eqb h) l = true \/ h = x.
Proof.
  rewrite existsb_app. cbn. rewrite orb_false_r.
  intro H. apply orb_true_iff in H as [H|H]; [now left|].
  right. now apply Nat.eqb_eq.
Qed.

Lemma live_filtered h h0 l :
  existsb (Nat.eqb h) (filter (fun h' => negb (Nat.eqb h' h0)) l) = true ->
  existsb (Nat.eqb h) l = true.
Proof.
  intro H. apply existsb_exists in H as (x & Hin & Hx).
  apply filter_In in Hin as [Hin _].
  apply existsb_exists. exists x. auto.
Qed.

Lemma step_handlesFresh op w : handlesFresh w -> handlesFresh (step op w).
Proof.
  unfold handlesFresh, live. intros Hf.
  x_cases op w; intros h' Hl'; x_cbn_in Hf;
    repeat match goal with
           | H : existsb _ (_ ++ [_]) = true |- _ =>
               apply live_app in H as [H| ->]; [|lia]
           | H : existsb _ (filter _ _) = true |- _ =>
               apply live_filtered in H
           end;
    try (specialize (Hf _ Hl'); lia).
Qed.

Lemma step_keeps_stray op w h :
  handlesFresh w ->
  live h w = true -> timer (engine w) <> Some h ->
  live h (step op w) = true /\ timer (engine (step op w)) <> Some h.
Proof.
  unfold handlesFresh, live. intros Hf Hl Ht.
  specialize (Hf h Hl).
  x_cases op w; x_cbn_in Hl; x_cbn_in Ht; x_cbn_in Hf.
  all: split; try assumption; try discriminate.
  all: try (apply live_filter; [assumption|congruence]).
  all: try (intro H; injection H as H; lia).
  all: apply existsb_exists in Hl as (x & Hin & Hx);
    apply existsb_exists; exists x; split; [apply in_or_app; now left|exact Hx].
Qed.

(** X3. The engine only ever clears the interval whose handle is in its
    timer slot.  An interval that is live but no longer in the slot (left
    behind by a second [start()]) is therefore never cleared, whatever is
    done to the engine, and never gets back into the slot. *)
Theorem stray_interval_stays_live (ops : list Op) (w : World) (h : Handle) :
  handlesFresh w ->
  live h w = true -> timer (engine w) <> Some h ->
  live h (run ops w) = true /\ timer (engine (run ops w)) <> Some h.
Proof.
  revert w. induction ops as [|op ops IH]; intros w Hf Hl Ht; [auto|].
  cbn [run fold_left].
  destruct (step_keeps_stray op w h Hf Hl Ht) as [Hl' Ht'].
  apply IH; auto using step_handlesFresh.
Qed.

Lemma stray_interval_stays_live_witness :
  live 1%nat (run [OpPause; OpStop; OpReset; OpFire 1%nat;
                   OpCreateSession boxBreathing 3; OpStart; OpStop]
                doubleStarted) = true.
Proof.
  apply (stray_interval_stays_live
           [OpPause; OpStop; OpReset; OpFire 1%nat;
            OpCreateSession boxBreathing 3; OpStart; OpStop]
           doubleStarted 1%nat).
  - intros h Hl. vm_compute in Hl.
    destruct h as [|[|[|h]]]; try discriminate Hl; vm_compute; lia.
  - vm_compute. reflexivity.
  - vm_compute. discriminate.
Defined.

(** ** What the operations leave alone *)

Lemma step_frame (op : Op) (w : World) (s : BreathSession) :
  session (engine w) = Some s ->
  (forall p n, op <> OpCreateSession p n) ->
  exists s',
    session (engine (step op w)) = Some s' /\
    pattern s' = pattern s /\ breaths s' = breaths s /\
    totalTime s' = totalTime s /\
    (op <> OpReset -> elapsedTime s <= elapsedTime s' <= elapsedTime s + 1) /\
    ((forall h, op <> OpFire h) -> op <> OpReset ->
     currentRound s' = currentRound s /\
     currentPhaseIndex s' = currentPhaseIndex s /\
     timeRemaining s' = timeRemaining s /\
     elapsedTime s' = elapsedTime s).
Proof.
  intros Hs Hop. x_cases op w; x_cbn_in Hs; try discriminate Hs.
  all: injection Hs as Hs; subst s; x_cbn.
  all: try (exfalso; eapply Hop; reflexivity).
  all: eexists; (split; [reflexivity|]); x_cbn.
  all: do 3 (split; [reflexivity|]).
  all: split; [intro H; first [lia | exfalso; now apply H]|].
  all: intros Hf Hr; try (exfalso; now apply Hr);
    try (exfalso; eapply Hf; reflexivity).
  all: repeat split; reflexivity.
Qed.

(** X4. No operation but [createSession] discards the session or
    changes its pattern, number of breaths or total time.  The elapsed time
    moves only with a tick, by one second, or back to zero with [reset()];
    [start], [pause], [resume], [stop], [setSoundCallback] and the listener
    calls leave round, phase index, time remaining and elapsed time alone. *)
Theorem only_ticks_move_counters (op : Op) (w : World) (s : BreathSession) :
  session (engine w) = Some s ->
  (forall p n, op <> OpCreateSession p n) ->
  exists s',
    session (engine (step op w)) = Some s' /\
    pattern s' = pattern s /\ breaths s' = breaths s /\
    totalTime s' = totalTime s /\
    (op <> OpReset -> elapsedTime s <= elapsedTime s' <= elapsedTime s + 1) /\
    ((forall h, op <> OpFire h) -> op <> OpReset ->
     currentRound s' = currentRound s /\
     currentPhaseIndex s' = currentPhaseIndex s /\
     timeRemaining s' = timeRemaining s /\
     elapsedTime s' = elapsedTime s).
Proof. exact (step_frame op w s). Qed.

Lemma only_ticks_move_counters_witness :
  exists s',
    session (engine (step OpStop runningWorld)) = Some s' /\
    session (engine runningWorld)
    = Some (set_isActive true s').
Proof.
  destruct (session (engine runningWorld)) as [s|] eqn:Hs; [|discriminate Hs].
  destruct (only_ticks_move_counters OpStop runningWorld s Hs)
    as (s' & Hs' & _); [discriminate|].
  exists s'. split; [exact Hs'|].
  vm_compute in Hs'. injection Hs' as <-.
  vm_compute in Hs. injection Hs as <-. vm_compute. reflexivity.
Defined.

(** ** [reset()] and [createSession] *)

Lemma ucs_inactive w :
  hasActiveSession w = false ->
  countAfter w = currentCount (engine w) /\
  directionAfter w = countingDirection (engine w) /\
  traceAfter w = trace w.
Proof.
  unfold hasActiveSession, countAfter, directionAfter, traceAfter.
  destruct_world w. destruct session0 as [[? ? ? ? ? ? ? ? ?]|]; cbn.
  - intros ->. unfold updateCountingState. cbn. auto.
  - auto.
Qed.

Lemma step_totalOk op w : totalOk w -> totalOk (step op w).
Proof.
  intros H s' Hs'.
  destruct (session (engine w)) as [s|] eqn:Hs.
  - destruct op;
      try (match type of Hs' with
           | session (engine (step ?o _)) = _ =>
               destruct (step_frame o w s Hs)
                 as (s1 & Hs1 & HP & HB & HT & _); [discriminate|]
           end;
           rewrite Hs1 in Hs'; injection Hs' as <-;
           rewrite HP, HB, HT; now apply H).
    clear H Hs. destruct_world w. unfold step, exec in Hs'.
    js_unfold. revert Hs'. js_simp. intro Hs'. injection Hs' as <-. reflexivity.
  - clear H. revert Hs'. destruct_world w. cbn in Hs. subst.
    destruct op; unfold step, exec, addEventListener, removeEventListener,
      setSoundCallback, elapse; js_unfold; js_auto;
      intro Hs'; try discriminate Hs'.
    injection Hs' as <-. reflexivity.
Qed.

(** X5. In every state the engine can reach, [reset()] leaves exactly
    the session that [createSession] would create for the same pattern and
    number of breaths, with the same count and direction. *)
Theorem reset_is_recreate (w : World) (s : BreathSession) :
  reachable w ->
  session (engine w) = Some s ->
  session (engine (step OpReset w))
  = session (engine (step (OpCreateSession (pattern s) (breaths s)) w)) /\
  currentCount (engine (step OpReset w))
  = currentCount (engine (step (OpCreateSession (pattern s) (breaths s)) w)) /\
  countingDirection (engine (step OpReset w))
  = countingDirection
      (engine (step (OpCreateSession (pattern s) (breaths s)) w)).
Proof.
  intros Hw Hs.
  assert (Ht : totalOk w).
  { destruct Hw as [ops ->]. apply run_invariant; [apply step_totalOk|].
    intros s0 H0. discriminate H0. }
  specialize (Ht s Hs).
  destruct_world w. cbn in Hs. subst.
  destruct s as [? ? ? ? ? ? ? ? ?]. cbn in Ht. subst.
  unfold step, exec. js_unfold. js_simp.
  match goal with
  | |- context [countAfter ?W] =>
      destruct (ucs_inactive W eq_refl) as (-> & -> & _)
  end.
  destruct timer0; js_simp; repeat split; reflexivity.
Qed.

Lemma reset_is_recreate_witness :
  session (engine (step OpReset pausedWorld))
  = session (engine (step (OpCreateSession boxBreathing 2) pausedWorld)).
Proof.
  destruct (session (engine pausedWorld)) as [s|] eqn:Hs; [|discriminate Hs].
  destruct (reset_is_recreate pausedWorld s) as (H & _).
  - eexists. reflexivity.
  - exact Hs.
  - vm_compute in Hs. injection Hs as <-. exact H.
Defined.

(** ** Ticks of a session that is not running *)

Lemma fire_idle h w :
  hasActiveSession w = false \/ hasPausedSession w = true ->
  session (engine (step (OpFire h) w)) = session (engine w) /\
  currentCount (engine (step (OpFire h) w)) = currentCount (engine w) /\
  countingDirection (engine (step (OpFire h) w))
  = countingDirection (engine w) /\
  soundCallback (engine (step (OpFire h) w)) = soundCallback (engine w) /\
  listeners (engine (step (OpFire h) w)) = listeners (engine w) /\
  trace (step (OpFire h) w) = trace w /\
  (live h w = true -> timer (engine (step (OpFire h) w)) = None).
Proof.
  unfold hasActiveSession, hasPausedSession, live. intro H.
  destruct_world w. destruct session0 as [[? ? ? ? ? ? ? ? ?]|];
    cbn in H; unfold step, exec; js_unfold; x_cbn.
  - assert (Hg : isPaused0 || negb isActive0 = true)
      by (destruct H as [-> | ->]; [apply orb_true_r|reflexivity]).
    destruct (existsb (Nat.eqb h) intervals0); js_simp.
    + rewrite Hg. destruct timer0; js_simp; repeat split; reflexivity.
    + repeat split; auto. discriminate.
  - destruct (existsb (Nat.eqb h) intervals0); js_simp.
    + destruct timer0; js_simp; repeat split; reflexivity.
    + repeat split; auto. discriminate.
Qed.

(** X6. Interval callbacks that run while the session is paused, stopped,
    completed or absent never advance it: whichever intervals fire, and
    however often, the session, the count, its direction, the callbacks and
    the trace stay as they were.  The first live one to fire empties the
    timer slot. *)
Theorem ticks_leave_idle_session_alone (hs : list Handle) (w : World) :
  hasActiveSession w = false \/ hasPausedSession w = true ->
  session (engine (run (map OpFire hs) w)) = session (engine w) /\
  currentCount (engine (run (map OpFire hs) w)) = currentCount (engine w) /\
  countingDirection (engine (run (map OpFire hs) w))
  = countingDirection (engine w) /\
  soundCallback (engine (run (map OpFire hs) w)) = soundCallback (engine w) /\
  listeners (engine (run (map OpFire hs) w)) = listeners (engine w) /\
  trace (run (map OpFire hs) w) = trace w.
Proof.
  revert w. induction hs as [|h hs IH]; intros w H; [repeat split|].
  cbn [map run fold_left].
  destruct (fire_idle h w H) as (E1 & E2 & E3 & E4 & E5 & E6 & _).
  destruct (IH (step (OpFire h) w)) as (F1 & F2 & F3 & F4 & F5 & F6).
  - unfold hasActiveSession, hasPausedSession in *. rewrite E1. exact H.
  - unfold run in *. repeat split; congruence.
Qed.

Lemma ticks_leave_idle_session_alone_witness :
  session (engine (run (map OpFire [1%nat; 1%nat; 2%nat])
                     (step OpPause doubleStarted)))
  = session (engine (step OpPause doubleStarted)).
Proof.
  apply (ticks_leave_idle_session_alone [1%nat; 1%nat; 2%nat]).
  right. vm_compute. reflexivity.
Defined.

(** ** When the count is sounded *)

Lemma spoken_spec w :
  spoken w =
  match soundCallback (engine w), session (engine w) with
  | Some cb, Some s =>
      if isActive s then
        match at_index (phases (pattern s)) (currentPhaseIndex s) with
        | Some p =>
            if negb (countAfter w =? currentCount (engine w))
               || (elapsedTime s =? 0)
            then [Sound cb p (countAfter w)]
            else []
        | None => []
        end
      else []
  | _, _ => []
  end.
Proof.
  destruct_world w. destruct session0 as [[? ? ? ? ? ? ? ? ?]|].
  2: { unfold spoken, traceAfter. cbn. rewrite skipn_all.
       destruct soundCallback0; reflexivity. }
  cbn [soundCallback session engine isActive pattern currentPhaseIndex
       elapsedTime currentCount].
  destruct isActive0.
  2: { unfold spoken, traceAfter, updateCountingState. cbn.
       rewrite skipn_all. destruct soundCallback0; reflexivity. }
  destruct (at_index (phases pattern0) currentPhaseIndex0) as [p|] eqn:Hp.
  2: { unfold spoken, traceAfter, updateCountingState. js_cbn. rewrite Hp.
       cbn. rewrite skipn_all. destruct soundCallback0; reflexivity. }
  match goal with
  | |- context [countAfter ?W] =>
      pose proof (ucs_counts W _ p eq_refl eq_refl Hp) as Hc
  end.
  unfold countingRule in Hc. cbn [timeRemaining] in Hc.
  unfold spoken, traceAfter, updateCountingState. js_cbn. rewrite Hp. js_cbn.
  destruct (type p); destruct Hc as [-> _]; js_cbn;
    match goal with
    | |- context [negb (?a =? ?b) || (?c =? 0)] =>
        destruct (negb (a =? b) || (c =? 0)); js_cbn
    end;
    destruct soundCallback0; js_cbn;
    rewrite ?skipn_all, ?skipn_length_app; reflexivity.
Qed.

Lemma countAfter_spec w :
  countAfter w =
  match session (engine w) with
  | Some s =>
      if isActive s then
        match at_index (phases (pattern s)) (currentPhaseIndex s) with
        | Some p =>
            match type p with
            | PhaseType.pause => Z.max (timeRemaining s) 1
            | _ => Z.min (duration p - timeRemaining s + 1) (duration p)
            end
        | None => currentCount (engine w)
        end
      else currentCount (engine w)
  | None => currentCount (engine w)
  end.
Proof.
  destruct (session (engine w)) as [s|] eqn:Hs.
  - destruct (isActive s) eqn:Ha.
    + destruct (at_index (phases (pattern s)) (currentPhaseIndex s))
        as [p|] eqn:Hp.
      * pose proof (ucs_counts w s p Hs Ha Hp) as Hc.
        unfold countingRule in Hc. destruct (type p); apply Hc.
      * unfold countAfter. destruct_world w. cbn in Hs. subst.
        destruct s as [? ? ? ? ? ? ? ? ?]. cbn in Ha, Hp. subst.
        unfold updateCountingState. js_cbn. rewrite Hp. reflexivity.
    + apply ucs_inactive. unfold hasActiveSession. rewrite Hs. exact Ha.
  - apply ucs_inactive. unfold hasActiveSession. rewrite Hs. reflexivity.
Qed.

(** X7. The first count of a session is always sounded: [start()] on a
    session that has just been created calls the sound callback once, with
    the first phase and its first count, although the count has not
    changed. *)
Theorem first_count_is_sounded
  (w0 : World) (P : BreathPattern) (N : Z) (cb : SoundCallback)
  (p0 : BreathPhase) (rest : list BreathPhase) :
  phases P = p0 :: rest ->
  sounds (trace (run [OpCreateSession P N; OpSetSoundCallback (Some cb);
                      OpStart] w0))
  = sounds (trace w0)
    ++ [(cb, p0,
         match type p0 with
         | PhaseType.pause => Z.max (duration p0) 1
         | _ => Z.min 1 (duration p0)
         end)].
Proof.
  intro HP.
  assert (H0 : at_index (phases P) 0 = Some p0) by (rewrite HP; reflexivity).
  assert (Hd : durationOrZero (at_index (phases P) 0) = duration p0)
    by (rewrite H0; reflexivity).
  destruct_world w0. unfold run, step, exec, setSoundCallback.
  cbn [fold_left]. js_unfold. js_simp. norm_sounds.
  repeat match goal with
         | |- context [spoken ?W] =>
             rewrite (spoken_spec W); x_cbn
         end.
  rewrite H0. x_cbn.
  match goal with
  | |- context [countAfter ?W] => rewrite (countAfter_spec W); x_cbn
  end.
  rewrite ?H0, ?Hd. x_cbn. rewrite orb_true_r. cbn [sounds app].
  replace (duration p0 - duration p0 + 1) with 1 by lia.
  rewrite ?app_nil_r. destruct soundCallback0; destruct (type p0); reflexivity.
Qed.

Lemma first_count_is_sounded_witness :
  sounds (trace (run [OpCreateSession inhalePause 2;
                      OpSetSoundCallback (Some 7%nat); OpStart] newWorld))
  = [(7%nat, phase PhaseType.inhale 3, 1)].
Proof.
  apply (first_count_is_sounded newWorld inhalePause 2 7%nat
           (phase PhaseType.inhale 3) [phase PhaseType.pause 2]).
  reflexivity.
Defined.

(** ** Patterns of one-second phases *)

Lemma at_index_In {A} (l : list A) i x : at_index l i = Some x -> In x l.
Proof.
  unfold at_index. destruct (i <? 0); [discriminate|]. apply nth_error_In.
Qed.

Lemma countAfter_quiet w :
  currentCount (engine w) = 1 ->
  (forall s, session (engine w) = Some s ->
             oneSecondPhases (pattern s) /\ timeRemaining s <= 1) ->
  countAfter w = 1.
Proof.
  intros Hc Hq. rewrite countAfter_spec.
  destruct (session (engine w)) as [s|]; [|exact Hc].
  destruct (Hq s eq_refl) as [Hall Ht].
  destruct (isActive s); [|exact Hc].
  destruct (at_index (phases (pattern s)) (currentPhaseIndex s)) as [p|] eqn:Hp;
    [|exact Hc].
  apply at_index_In in Hp.
  destruct (proj1 (Forall_forall _ _) Hall p Hp) as [Hty Hd].
  destruct (type p); first [lia | contradiction].
Qed.

Lemma durationOrZero_quiet P i :
  oneSecondPhases P -> durationOrZero (at_index (phases P) i) <= 1.
Proof.
  intro H. destruct (at_index (phases P) i) as [p|] eqn:Hp; cbn; [|lia].
  apply at_index_In in Hp.
  destruct (proj1 (Forall_forall _ _) H p Hp) as [_ Hd]. lia.
Qed.

Ltac quiet_counts :=
  repeat match goal with
         | |- context [countAfter ?W] =>
             rewrite (countAfter_quiet W);
             [ | x_cbn; try assumption; try reflexivity
               | x_cbn; intros ? ?Hq; try discriminate Hq;
                 injection Hq as Hq; subst; x_cbn;
                 split; [assumption | lia] ]
         end.

Ltac phase_facts Hall :=
  repeat match goal with
         | H : at_index _ _ = Some ?b |- _ =>
             apply at_index_In in H;
             apply (proj1 (Forall_forall _ _) Hall) in H;
             destruct H as [? ?]
         end.

Lemma step_quietInv op w :
  quietOp op -> quietInv w -> quietInv (step op w).
Proof.
  intros Hop [Hc Hq]. unfold quietInv.
  x_cases op w.
  all: x_cbn_in Hc; x_cbn_in Hop; subst.
  all: try (x_cbn_in Hq; destruct (Hq _ eq_refl) as (Hall & Htr & Hel);
            x_cbn_in Hall; x_cbn_in Htr; x_cbn_in Hel; clear Hq;
            phase_facts Hall).
  all: split;
    [ quiet_counts; reflexivity
    | intros s Hs; try discriminate Hs; injection Hs as Hs; subst s; x_cbn ].
  all: split; [assumption|]; split; [|lia].
  all: first [lia | now apply durationOrZero_quiet].
Qed.

Lemma fire_quiet h w :
  quietInv w -> sounds (trace (step (OpFire h) w)) = sounds (trace w).
Proof.
  intros [Hc Hq].
  destruct_world w. destruct session0 as [[? ? ? ? ? ? ? ? ?]|];
    unfold step, exec; js_unfold; js_auto; x_cbn.
  all: x_cbn_in Hc; subst.
  all: try (x_cbn_in Hq; destruct (Hq _ eq_refl) as (Hall & Htr & Hel);
            x_cbn_in Hall; x_cbn_in Htr; x_cbn_in Hel; clear Hq;
            phase_facts Hall).
  all: norm_sounds; try reflexivity.
  all: repeat match goal with
              | |- context [spoken ?W] => rewrite (spoken_spec W); x_cbn
              end.
  all: quiet_counts.
  all: assert (He : (elapsedTime0 + 1 =? 0) = false) by (apply Z.eqb_neq; lia);
    rewrite ?He; cbn [Z.eqb Pos.eqb negb orb];
    repeat match goal with
           | |- context [match ?x with _ => _ end] => destruct x
           end;
    cbn [sounds app]; rewrite ?app_nil_r; reflexivity.
Qed.

Lemma run_quietInv ops : forall w,
  Forall quietOp ops -> quietInv w -> quietInv (run ops w).
Proof.
  induction ops as [|op ops IH]; intros w Hv Hw; [exact Hw|].
  inversion Hv; subst. cbn. apply IH; [assumption|].
  now apply step_quietInv.
Qed.

(** X8. With patterns whose phases all count up and last one second
    (Kapalabhati and Bhastrika in the catalog), no tick ever calls the sound
    callback: the count on display is 1 before and after every tick, and the
    callback is only called when the count changes.  Such a session is
    sounded once, by [start()], and is silent from then on. *)
Theorem one_second_patterns_tick_silently (ops : list Op) (h : Handle) :
  Forall quietOp ops ->
  sounds (trace (step (OpFire h) (run ops newWorld)))
  = sounds (trace (run ops newWorld)) /\
  currentCount (engine (step (OpFire h) (run ops newWorld))) = 1.
Proof.
  intro Hv.
  assert (H : quietInv (run ops newWorld)).
  { apply run_quietInv; [exact Hv|]. split; [reflexivity|].
    intros s Hs. discriminate Hs. }
  split; [now apply fire_quiet|].
  apply (step_quietInv (OpFire h) _ I H).
Qed.

Lemma one_second_patterns_tick_silently_witness :
  let ops := [OpCreateSession kapalabhati 30; OpSetSoundCallback (Some 7%nat);
              OpStart; OpFire 1%nat; OpFire 1%nat] in
  sounds (trace (step (OpFire 1%nat) (run ops newWorld)))
  = sounds (trace (run ops newWorld)) /\
  currentCount (engine (step (OpFire 1%nat) (run ops newWorld))) = 1.
Proof.
  apply (one_second_patterns_tick_silently
           [OpCreateSession kapalabhati 30; OpSetSoundCallback (Some 7%nat);
            OpStart; OpFire 1%nat; OpFire 1%nat] 1%nat).
  repeat constructor; try discriminate; reflexivity.
Defined.

(** ** Listeners *)

Lemma notified_app t1 t2 : notified (t1 ++ t2) = notified t1 ++ notified t2.
Proof.
  induction t1 as [|x t1 IH]; [reflexivity|].
  destruct x; cbn; rewrite IH; reflexivity.
Qed.

Lemma notified_emission ev ls : notified (emission ev ls) = ls.
Proof. unfold emission. cbn. induction ls; cbn; congruence. Qed.

Lemma notified_spoken w : notified (spoken w) = [].
Proof.
  destruct (spoken_cases w) as [_ [-> | (cb & s & p & _ & _ & _ & _ & _ & ->)]];
    reflexivity.
Qed.

Lemma emitted_spoken w : emitted (spoken w) = [].
Proof.
  destruct (spoken_cases w) as [_ [-> | (cb & s & p & _ & _ & _ & _ & _ & ->)]];
    reflexivity.
Qed.

Ltac norm_notified :=
  x_cbn;
  repeat (progress (rewrite ?notified_app, ?notified_emission,
                      ?emitted_app, ?emitted_emission,
                      ?traceAfter_spoken, ?notified_spoken, ?emitted_spoken);
          x_cbn);
  cbn [notified emitted app]; rewrite <- ?app_assoc, ?app_nil_r; cbn [app].

Lemma step_notifies (op : Op) (w : World) :
  exists evs,
    emitted (trace (step op w)) = emitted (trace w) ++ evs /\
    notified (trace (step op w))
    = notified (trace w) ++ flat_map (fun _ => listeners (engine w)) evs.
Proof.
  x_cases op w; norm_notified.
  all: first
    [ exists []; split; [symmetry; apply app_nil_r|];
      cbn; symmetry; apply app_nil_r
    | eexists; split; [reflexivity|];
      cbn [flat_map app]; rewrite <- ?app_assoc, ?app_nil_r; reflexivity ].
Qed.


Lemma step_listeners op w :
  listeners (engine (step op w)) =
  match op with
  | OpAddEventListener l => listeners (engine w) ++ [l]
  | OpRemoveEventListener l =>
      filter (fun l' => negb (Nat.eqb l' l)) (listeners (engine w))
  | _ => listeners (engine w)
  end.
Proof. x_cases op w; reflexivity. Qed.

Lemma flat_map_const_notin {A B} (l : B) (ls : list B) (evs : list A) :
  ~ In l ls -> ~ In l (flat_map (fun _ => ls) evs).
Proof.
  intros H Hin. apply in_flat_map in Hin as (_ & _ & Hin). contradiction.
Qed.

Lemma unregistered_stays_uncalled ops : forall w l d0,
  ~ In (OpAddEventListener l) ops ->
  ~ In l (listeners (engine w)) ->
  notified (trace w) = d0 ->
  exists d, notified (trace (run ops w)) = d0 ++ d /\ ~ In l d.
Proof.
  induction ops as [|op ops IH]; intros w l d0 Hops Hl Hd.
  - exists []. split; [rewrite app_nil_r; exact Hd | intros []].
  - cbn [run fold_left].
    destruct (step_notifies op w) as (evs & _ & Hn).
    destruct (IH (step op w) l (notified (trace (step op w))))
      as (d & Hd' & Hnd).
    + intro H. apply Hops. now right.
    + rewrite step_listeners. destruct op; auto.
      * intro H. apply in_app_or in H as [H|[H|[]]]; [auto|].
        subst. apply Hops. now left.
      * intro H. apply filter_In in H as [H _]. auto.
    + reflexivity.
    + exists (flat_map (fun _ => listeners (engine w)) evs ++ d). split.
      * unfold run in Hd'. rewrite Hd', Hn, Hd, app_assoc. reflexivity.
      * intro H. apply in_app_or in H as [H|H]; [|auto].
        revert H. now apply flat_map_const_notin.
Qed.

(** X10. [removeEventListener] removes every registration of the
    listener, and from then on the listener is not called again, whatever the
    engine does, until it is added again.  Adding a listener that was not
    registered and removing it again restores the list of listeners. *)
Theorem removed_listener_is_never_called
  (ops : list Op) (w : World) (l : Listener) :
  ~ In (OpAddEventListener l) ops ->
  (~ In l (listeners (engine (step (OpRemoveEventListener l) w)))) /\
  (exists d,
     notified (trace (run ops (step (OpRemoveEventListener l) w)))
     = notified (trace w) ++ d /\ ~ In l d) /\
  (~ In l (listeners (engine w)) ->
   listeners (engine (run [OpAddEventListener l; OpRemoveEventListener l] w))
   = listeners (engine w)).
Proof.
  intro Hops.
  assert (Hl : ~ In l (listeners (engine (step (OpRemoveEventListener l) w)))).
  { rewrite step_listeners. intro H. apply filter_In in H as [_ H].
    rewrite Nat.eqb_refl in H. discriminate H. }
  split; [exact Hl|]. split.
  - apply unregistered_stays_uncalled; [exact Hops | exact Hl|].
    destruct_world w. reflexivity.
  - intro Hn. cbn [run fold_left]. rewrite !step_listeners.
    rewrite filter_app. cbn. rewrite Nat.eqb_refl. cbn. rewrite app_nil_r.
    apply forallb_filter_id. apply forallb_forall. intros x Hx.
    apply negb_true_iff, Nat.eqb_neq. intros ->. contradiction.
Qed.

Lemma removed_listener_is_never_called_witness :
  exists d,
    notified (trace (run [OpStart; OpFire 1%nat; OpStop]
                       (step (OpRemoveEventListener 5%nat)
                          (run [OpAddEventListener 5%nat;
                                OpAddEventListener 6%nat;
                                OpCreateSession boxBreathing 2] newWorld))))
    = notified (trace (run [OpAddEventListener 5%nat;
                            OpAddEventListener 6%nat;
                            OpCreateSession boxBreathing 2] newWorld)) ++ d /\
    ~ In 5%nat d.
Proof.
  apply (removed_listener_is_never_called [OpStart; OpFire 1%nat; OpStop]).
  intros [H|[H|[H|[]]]]; discriminate H.
Defined.

(** ** The phase index *)

Lemma at_index_some {A} (l : list A) i :
  0 <= i < Z.of_nat (List.length l) -> exists x, at_index l i = Some x.
Proof.
  intros [H0 H1]. unfold at_index.
  destruct (Z.ltb_spec i 0); [lia|].
  destruct (nth_error l (Z.to_nat i)) as [x|] eqn:E; [eauto|].
  apply nth_error_None in E. lia.
Qed.

Lemma length_pos {A} (l : list A) : l <> [] -> 0 < Z.of_nat (List.length l).
Proof. destruct l; [contradiction|cbn; lia]. Qed.

Lemma step_indexOk op w :
  nonEmptyOp op -> indexOk w ->
  indexOk (step op w) /\ returns (exec op w) = true.
Proof.
  intros Hop Hi. unfold indexOk in *.
  x_cases op w; x_cbn_in Hop.
  all: try (x_cbn_in Hi; specialize (Hi _ eq_refl); x_cbn_in Hi).
  all: bools.
  all: repeat match goal with
              | H : at_index ?l ?i = None |- _ =>
                  exfalso;
                  destruct (at_index_some l i) as [? E];
                  [ try lia | rewrite E in H; discriminate H ]
              end.
  all: split; [|reflexivity].
  all: intros s' Hs'; x_cbn_in Hs'; try discriminate Hs'.
  all: try (injection Hs' as <-; x_cbn).
  all: try lia.
  all: try (apply length_pos in Hop; lia).
Qed.

Lemma run_indexOk ops : forall w,
  Forall nonEmptyOp ops -> indexOk w -> indexOk (run ops w).
Proof.
  induction ops as [|op ops IH]; intros w Hops Hw; [exact Hw|].
  inversion Hops; subst. cbn [run fold_left]. apply IH; [assumption|].
  now apply step_indexOk.
Qed.

Lemma indexOk_newWorld : indexOk newWorld.
Proof. intros s Hs. discriminate Hs. Qed.

(** X11. As long as sessions are created with patterns that have a
    phase, no call and no tick of the timer throws, whatever the order of the
    calls, and [getCurrentPhase()] names a phase whenever there is a
    session. *)
Theorem nonempty_patterns_never_throw (ops : list Op) (op : Op) :
  Forall nonEmptyOp ops -> nonEmptyOp op ->
  let w := run ops newWorld in
  returns (exec op w) = true /\
  (forall s, session (engine w) = Some s ->
             exists p, result (getCurrentPhase w) = Some (Some p)).
Proof.
  intros Hops Hop w.
  pose proof (run_indexOk ops newWorld Hops indexOk_newWorld) as Hi.
  fold w in Hi. split.
  - now apply step_indexOk.
  - intros s Hs. destruct (at_index_some _ _ (Hi s Hs)) as [p Hp].
    exists p. unfold getCurrentPhase, bind, this. cbn.
    rewrite Hs. cbn. rewrite Hp. reflexivity.
Qed.

Lemma nonempty_patterns_never_throw_witness :
  let w := run [OpCreateSession kapalabhati 1; OpStart; OpFire 1%nat;
                OpFire 1%nat; OpStart; OpFire 2%nat] newWorld in
  returns (exec (OpFire 2%nat) w) = true /\
  (forall s, session (engine w) = Some s ->
             exists p, result (getCurrentPhase w) = Some (Some p)).
Proof.
  apply (nonempty_patterns_never_throw
           [OpCreateSession kapalabhati 1; OpStart; OpFire 1%nat;
            OpFire 1%nat; OpStart; OpFire 2%nat] (OpFire 2%nat)).
  - repeat constructor; discriminate.
  - exact I.
Defined.

(** X12. A session of a pattern without phases does throw: while rounds
    are left, each tick of a running session counts one round as complete,
    emits [roundComplete] and then fails on the missing first phase; the tick
    that exceeds the number of breaths completes the session. *)
Theorem empty_pattern_ticks_throw (w : World) (s : BreathSession) (h : Handle) :
  session (engine w) = Some s ->
  phases (pattern s) = [] ->
  isActive s = true -> isPaused s = false ->
  timeRemaining s <= 1 -> 0 <= currentPhaseIndex s ->
  live h w = true ->
  returns (exec (OpFire h) w) = (breaths s <=? currentRound s) /\
  exists s',
    session (engine (step (OpFire h) w)) = Some s' /\
    currentRound s' = currentRound s + 1 /\
    elapsedTime s' = elapsedTime s + 1 /\
    isActive s' = negb (breaths s <=? currentRound s) /\
    exists evs,
      emitted (trace (step (OpFire h) w)) = emitted (trace w) ++ evs /\
      map EngineEvent.type evs
      = if breaths s <=? currentRound s
        then [EventType.roundComplete; EventType.stop;
              EventType.sessionComplete]
        else [EventType.roundComplete].
Proof.
  intros Hs Hph Ha Hp Ht Hi Hl.
  destruct_world w. destruct s as [[? ? ? ? ps ? ? ?] ? ? ? ? ? ? ? ?].
  cbn in Hs, Hph, Ha, Hp, Ht, Hi. subst.
  unfold step, exec, fire. rewrite Hl. js_unfold; js_auto; x_cbn.
  all: bools; try (exfalso; lia).
  all: try match goal with H : at_index [] _ = Some _ |- _ =>
                 discriminate H end.
  all: (split; [reflexivity|]); eexists; (split; [reflexivity|]); x_cbn.
  all: do 3 (split; [reflexivity|]).
  all: norm_emitted; rewrite ?emitted_spoken, ?app_nil_r; cbn [app].
  all: eexists; split; reflexivity.
Qed.

Lemma empty_pattern_ticks_throw_witness :
  returns (exec (OpFire 1%nat)
             (run [OpCreateSession (customPattern []) 2; OpStart] newWorld))
  = false.
Proof.
  exact (proj1 (empty_pattern_ticks_throw
                  (run [OpCreateSession (customPattern []) 2; OpStart] newWorld)
                  {| pattern := customPattern []; breaths := 2;
                     currentRound := 1; currentPhaseIndex := 0;
                     timeRemaining := 0; isActive := true; isPaused := false;
                     totalTime := 0; elapsedTime := 0 |}
                  1%nat eq_refl eq_refl eq_refl eq_refl
                  ltac:(cbn; lia) ltac:(cbn; lia) eq_refl)).
Defined.

(** ** What the events carry *)

Ltac payload :=
  first
    [ exists []; split; [symmetry; apply app_nil_r|]; intros ev []
    | eexists; split; [reflexivity|];
      intros ev Hin; cbn [In] in Hin;
      repeat match goal with
             | H : _ \/ _ |- _ => destruct H as [H|H]
             | H : False |- _ => destruct H
             end;
      subst ev; cbn [EngineEvent.type EngineEvent.data];
      (split; (let Hty := fresh "Hty" in intro Hty; try discriminate Hty));
      eexists; eexists; (split; [reflexivity|]); x_cbn;
      repeat split; first [reflexivity | assumption | lia] ].

(** X13. The data of a [phaseChange] event describes the session as
    the operation leaves it: the phase is the one at the session's phase
    index, the index and round are the session's, and the phase's whole
    duration remains.  A [roundComplete] event carries the round that was
    finished and the session's number of breaths. *)
Theorem event_data_describes_session (op : Op) (w : World) :
  exists evs,
    emitted (trace (step op w)) = emitted (trace w) ++ evs /\
    forall ev, In ev evs ->
      (EngineEvent.type ev = EventType.phaseChange ->
       exists s' p,
         session (engine (step op w)) = Some s' /\
         EngineEvent.data ev
         = PhaseChangeData p (currentPhaseIndex s') (currentRound s') /\
         at_index (phases (pattern s')) (currentPhaseIndex s') = Some p /\
         timeRemaining s' = duration p /\
         isActive s' = true) /\
      (EngineEvent.type ev = EventType.roundComplete ->
       exists s' n,
         session (engine (step op w)) = Some s' /\
         EngineEvent.data ev = RoundCompleteData n (breaths s') /\
         currentRound s' = n + 1 /\
         currentPhaseIndex s' = 0).
Proof.
  x_cases op w; norm_notified.
  all: try match goal with
           | H : ?a || negb ?b = false |- _ =>
               destruct a, b; try discriminate H
           end.
  all: payload.
Qed.

(** ** The count stays within the phase *)

Lemma wellFormed_first P :
  wellFormed P ->
  exists p, at_index (phases P) 0 = Some p /\ 1 <= duration p.
Proof.
  intros [Hne Hall]. destruct (phases P) as [|p ps]; [contradiction|].
  exists p. split; [reflexivity|]. now inversion Hall.
Qed.

Lemma wellFormed_at P i p :
  wellFormed P -> at_index (phases P) i = Some p -> 1 <= duration p.
Proof.
  intros [_ Hall] Hp. apply at_index_In in Hp.
  exact (proj1 (Forall_forall _ _) Hall p Hp).
Qed.

Lemma at_index_range {A} (l : list A) i x :
  at_index l i = Some x -> 0 <= i < Z.of_nat (List.length l).
Proof.
  unfold at_index. destruct (Z.ltb_spec i 0); [discriminate|].
  intro E. assert (Hn : nth_error l (Z.to_nat i) <> None) by congruence.
  apply nth_error_Some in Hn. lia.
Qed.

Ltac count_facts Hwf :=
  repeat match goal with
         | H : at_index (phases ?P) ?i = Some ?b |- _ =>
             lazymatch goal with
             | _ : 1 <= duration b |- _ => fail
             | _ => pose proof (wellFormed_at P i b Hwf H);
                    pose proof (at_index_range _ _ _ H)
             end
         end.

Lemma step_countInv op w :
  wellFormedOp op -> countInv w -> countInv (step op w).
Proof.
  intros Hop [Hn Hw]. unfold countInv.
  x_cases op w; x_cbn_in Hop; x_cbn_in Hn; x_cbn_in Hw.
  all: try (destruct (Hw _ eq_refl) as (Hwf & p & Hp & Htr & Hc);
            x_cbn_in Hwf; x_cbn_in Hp; x_cbn_in Htr; x_cbn_in Hc; clear Hw Hn).
  all: try (specialize (Hn eq_refl); clear Hw).
  all: (split; [intro Hs; try discriminate Hs; try assumption; try reflexivity
               | intros s Hs; try discriminate Hs; injection Hs as <-; x_cbn]).
  all: rewrite ?countAfter_spec; x_cbn; rewrite ?countAfter_spec; x_cbn.
  all: try (destruct (wellFormed_first _ Hop) as (q0 & Hq0 & Hd0);
            rewrite ?Hq0; x_cbn).
  all: try (destruct (wellFormed_first _ Hwf) as (p0 & Hp0 & Hd0)).
  all: repeat match goal with
              | H1 : at_index ?l ?i = Some ?a, H2 : at_index ?l ?i = Some ?b
                |- _ => rewrite H1 in H2; injection H2 as <-
              end.
  all: try count_facts Hwf.
  all: bools.
  all: repeat match goal with
              | H : at_index ?l ?i = None |- _ =>
                  exfalso;
                  destruct (at_index_some l i) as [? E];
                  [ try lia | rewrite E in H; discriminate H ]
              end.
  all: repeat match goal with
              | H : ?b = true |- _ => is_var b; subst b
              | H : ?b = false |- _ => is_var b; subst b
              end.
  all: repeat match goal with
              | H : at_index ?l ?i = Some _ |- context [at_index ?l ?i] =>
                  rewrite H
              end.
  all: try (split; [assumption|]; eexists;
            (split; [first [reflexivity|eassumption]|]);
            x_cbn; repeat match goal with
                          | |- context [type ?p] => destruct (type p)
                          | |- context [if ?b then _ else _] => destruct b
                          end; lia).
Qed.

Lemma run_countInv ops : forall w,
  Forall wellFormedOp ops -> countInv w -> countInv (run ops w).
Proof.
  induction ops as [|op ops IH]; intros w Hops Hw; [exact Hw|].
  inversion Hops; subst. cbn [run fold_left]. apply IH; [assumption|].
  now apply step_countInv.
Qed.

Lemma countInv_newWorld : countInv newWorld.
Proof. split; [reflexivity|]. intros s Hs. discriminate Hs. Qed.

(** X14. When every pattern in use has a phase and every phase lasts at
    least a second, the count on display is between 1 and the duration of the
    current phase, and the time remaining in the phase does not exceed that
    duration, in every state the engine can reach: also after a stop, a
    restart or the end of the session. *)
Theorem count_stays_within_phase (ops : list Op) :
  Forall wellFormedOp ops ->
  let w := run ops newWorld in
  forall s, session (engine w) = Some s ->
  exists p c t,
    result (getCurrentPhase w) = Some (Some p) /\
    result (getCurrentCount w) = Some c /\
    result (getPhaseTimeRemaining w) = Some t /\
    1 <= c <= duration p /\ t <= duration p.
Proof.
  intros Hops w s Hs.
  destruct (run_countInv ops newWorld Hops countInv_newWorld) as [_ H].
  fold w in H. destruct (H s Hs) as (_ & p & Hp & Ht & Hc).
  exists p, (currentCount (engine w)), (timeRemaining s).
  unfold getCurrentPhase, getCurrentCount, getPhaseTimeRemaining, bind, this.
  cbn. rewrite Hs. cbn. rewrite Hp. auto.
Qed.

Lemma count_stays_within_phase_witness :
  let w := run [OpCreateSession boxBreathing 2; OpStart; OpFire 1%nat;
                OpStop; OpStart; OpFire 2%nat] newWorld in
  exists p c t,
    result (getCurrentPhase w) = Some (Some p) /\
    result (getCurrentCount w) = Some c /\
    result (getPhaseTimeRemaining w) = Some t /\
    1 <= c <= duration p /\ t <= duration p.
Proof.
  eapply (count_stays_within_phase
            [OpCreateSession boxBreathing 2; OpStart; OpFire 1%nat;
             OpStop; OpStart; OpFire 2%nat]).
  - repeat constructor; try discriminate; cbn; lia.
  - cbv. reflexivity.
Defined.

(** ** The time remaining *)

Lemma ticks_ticking P N base :
  phases P <> [] -> Forall (fun p => 1 <= duration p) (phases P) -> 1 <= N ->
  forall k w left,
    ticking P N base left w -> Z.of_nat k < left ->
    ticking P N base (left - Z.of_nat k) (ticks k w).
Proof.
  intros Hne Hpos HN. induction k as [|k IH]; intros w left Hw Hk.
  - cbn [ticks]. replace (left - Z.of_nat 0) with left by lia. exact Hw.
  - cbn [ticks].
    destruct (tick_ticking P N base Hne Hpos HN left w Hw) as [[H2 Ht]|[H1 _]];
      [|lia].
    replace (left - Z.of_nat (S k)) with (left - 1 - Z.of_nat k) by lia.
    apply IH; [exact Ht | lia].
Qed.

(** X15. During a session of a well-formed pattern the total time
    remaining goes down by one with every tick: after [k] of the session's
    [T] ticks [getTotalTimeRemaining()] is [T - k].  Before the last tick the
    session is active and at least one second of the current phase is left;
    after it nothing remains. *)
Theorem total_time_remaining_counts_down
  (w0 : World) (P : BreathPattern) (N : Z) (k : nat) :
  phases P <> [] ->
  Forall (fun p => 1 <= duration p) (phases P) ->
  1 <= N ->
  Z.of_nat k <= sumDurations (phases P) * N ->
  let w := ticks k (run [OpCreateSession P N; OpStart] w0) in
  result (getTotalTimeRemaining w)
  = Some (sumDurations (phases P) * N - Z.of_nat k) /\
  (Z.of_nat k < sumDurations (phases P) * N ->
   exists s t,
     result (getSession w) = Some (Some s) /\ isActive s = true /\
     result (getPhaseTimeRemaining w) = Some t /\ 1 <= t).
Proof.
  intros Hne Hpos HN Hk w.
  pose proof (started_ticking P N (emitted (trace w0)) Hne Hpos HN w0 eq_refl)
    as Hstart.
  destruct (Z.eq_dec (Z.of_nat k) (sumDurations (phases P) * N)) as [E|E].
  - split; [|lia].
    pose proof (sum_round_pos P Hne Hpos) as Hsum.
    destruct k as [|n]; [nia|].
    rewrite <- E in Hstart.
    destruct (ticks_complete P N _ Hne Hpos HN n _ Hstart)
      as (s & delta & Hs & _ & _ & _ & _ & _ & _ & Htot & Hel & _).
    fold w in Hs. clearbody w. unfold getTotalTimeRemaining, bind, this. cbn.
    rewrite Hs. cbn. f_equal. lia.
  - assert (Hlt : Z.of_nat k < sumDurations (phases P) * N) by lia.
    destruct (ticks_ticking P N _ Hne Hpos HN k _ _ Hstart Hlt)
      as (s & h & i & delta & Hs & _ & _ & _ & _ & Ha & _ & _ & _ & _ & Ht
          & _ & Htot & Hel & _).
    fold w in Hs. clearbody w. split.
    + unfold getTotalTimeRemaining, bind, this. cbn.
      rewrite Hs. cbn. f_equal. lia.
    + intros _. exists s, (timeRemaining s).
      unfold getSession, getPhaseTimeRemaining, bind, this. cbn.
      rewrite Hs. cbn. auto.
Qed.

Lemma total_time_remaining_counts_down_witness :
  let w := ticks 5 (run [OpCreateSession boxBreathing 2; OpStart] newWorld) in
  result (getTotalTimeRemaining w)
  = Some (sumDurations (phases boxBreathing) * 2 - Z.of_nat 5) /\
  (Z.of_nat 5 < sumDurations (phases boxBreathing) * 2 ->
   exists s t,
     result (getSession w) = Some (Some s) /\ isActive s = true /\
     result (getPhaseTimeRemaining w) = Some t /\ 1 <= t).
Proof.
  apply (total_time_remaining_counts_down newWorld boxBreathing 2 5).
  - discriminate.
  - repeat constructor; cbn; lia.
  - lia.
  - vm_compute. discriminate.
Defined.

(** ** The catalog *)

Ltac each_pattern H :=
  unfold BREATH_PATTERNS in H; cbn [In] in H;
  repeat match goal with
         | H : _ \/ _ |- _ => destruct H as [H|H]
         end; [subst .. | destruct H].

Lemma catalog_wellFormed P : In P BREATH_PATTERNS -> wellFormed P.
Proof.
  intro H. each_pattern H.
  all: split; [discriminate | repeat constructor; cbn; lia].
Qed.

(** X16. Looking a pattern up by its id finds exactly the catalog's
    pattern of that id: the ids of the catalog are distinct, so no entry hides
    another; and every pattern is listed under its own category and under no
    other. *)
Theorem getPatternById_finds_the_pattern (i : string) (P : BreathPattern) :
  (getPatternById i = Some P <-> In P BREATH_PATTERNS /\ id P = i) /\
  (forall c, In P (getPatternsByCategory c)
             <-> In P BREATH_PATTERNS /\ category P = c).
Proof.
  split.
  - split.
    + intro H. apply find_some in H as [Hin He].
      split; [exact Hin | now apply String.eqb_eq].
    + intros [Hin <-]. each_pattern Hin; reflexivity.
  - intro c. unfold getPatternsByCategory. rewrite filter_In.
    split; intros [Hin Hc]; (split; [exact Hin|]).
    + destruct (category P), c; first [reflexivity | discriminate Hc].
    + subst c. destruct (category P); reflexivity.
Qed.

Lemma ticking_tick_returns P N base left w :
  ticking P N base left w -> returns (tick w) = true.
Proof.
  intros (s & h & i & delta & Hs & Hh & _ & HP & _ & _ & _ & Hi & Hlen & _).
  assert (Hok : indexOk w).
  { intros s' Hs'. rewrite Hs in Hs'. injection Hs' as <-.
    rewrite HP, Hi. lia. }
  destruct (step_indexOk (OpFire h) w I Hok) as [_ Hr].
  unfold tick, bind, this. cbn. rewrite Hh. exact Hr.
Qed.

(** X17. Every pattern of the catalog can be run: for any number of
    rounds [N >= 1], a session of it completes after as many ticks as its
    phases' durations sum to, times [N], with [N] rounds counted and no tick
    failing on the way. *)
Theorem catalog_sessions_complete
  (w0 : World) (P : BreathPattern) (N : Z) :
  In P BREATH_PATTERNS -> 1 <= N ->
  let T := Z.to_nat (sumDurations (phases P) * N) in
  let w1 := run [OpCreateSession P N; OpStart] w0 in
  completed P N (emitted (trace w0)) (ticks T w1) /\
  (forall k, (k < T)%nat -> returns (tick (ticks k w1)) = true).
Proof.
  intros Hin HN T w1.
  destruct (catalog_wellFormed P Hin) as [Hne Hpos].
  pose proof (sum_round_pos P Hne Hpos) as Hsum.
  pose proof (started_ticking P N (emitted (trace w0)) Hne Hpos HN w0 eq_refl)
    as Hstart.
  fold w1 in Hstart. split.
  - subst T. destruct (Z.to_nat (sumDurations (phases P) * N)) as [|n] eqn:En;
      [nia|].
    apply (ticks_complete P N _ Hne Hpos HN).
    replace (Z.of_nat (S n)) with (sumDurations (phases P) * N) by lia.
    exact Hstart.
  - intros k Hk.
    assert (Hlt : Z.of_nat k < sumDurations (phases P) * N) by (subst T; lia).
    pose proof (ticks_ticking P N _ Hne Hpos HN k _ _ Hstart Hlt) as Ht.
    exact (ticking_tick_returns _ _ _ _ _ Ht).
Qed.

Lemma catalog_sessions_complete_witness :
  let T := Z.to_nat (sumDurations (phases nadiShodhana) * 5) in
  let w1 := run [OpCreateSession nadiShodhana 5; OpStart] newWorld in
  completed nadiShodhana 5 (emitted (trace newWorld)) (ticks T w1) /\
  (forall k, (k < T)%nat -> returns (tick (ticks k w1)) = true).
Proof.
  apply (catalog_sessions_complete newWorld nadiShodhana 5).
  - unfold BREATH_PATTERNS. cbn [In]. tauto.
  - lia.
Defined.
